(** * Mailbox onboarding: content extraction, classification, label
      synchronisation and the per-user onboarding cycle.

    A shallow embedding of
    - [app/services/gmail_service.py]   (class [GmailService]),
    - [app/services/labeling_service.py] (class [LabelingService]),
    - [app/workers/onboarding_worker.py] (class [OnboardingWorker]),
    - the three mailbox columns of [User] in [app/models.py],
    followed by the properties proved about them.

    Python [str] values are Rocq strings, dictionaries whose keys may be
    missing are records of [option] fields (a missing key is [None]), the
    request dictionary built by [modify_message_labels] is a [gmap].  The
    remote services (mailbox API, text-generation API, database session,
    clock) are oracles over an abstract world, every call to one of them is
    recorded in a trace. *)

From Stdlib Require Import ZArith Ascii String List Lia Bool.
From stdpp Require Import base option list strings gmap.

Local Open Scope string_scope.
Local Open Scope Z_scope.
Local Open Scope list_scope.
Local Open Scope stdpp_scope.

(** ** Python built-ins used by the services *)

(** Truth value of a Python [str]: only the empty string is falsy. *)
Definition truthy (s : string) : bool := negb (String.eqb s "").

(** Truth value of an [Optional[str]]: [None] and the empty string are falsy. *)
Definition truthy_opt (o : option string) : bool :=
  match o with
  | Some s => truthy s
  | None => false
  end.

(** Truth value of a list: only the empty list is falsy. *)
Definition truthy_list {A} (l : list A) : bool :=
  match l with
  | [] => false
  | _ :: _ => true
  end.

(** The library functions the services call on text.  They are taken as an
    interface: the general theorems below hold for any implementation of it,
    and [reference_runtime] further down is the implementation on which the
    concrete runs are evaluated. *)
Class PyRuntime := {
  (** [base64.urlsafe_b64decode(data)]; [None] when it raises. *)
  urlsafe_b64decode : string -> option (list ascii);
  (** [bytes.decode('utf-8', errors='ignore')]. *)
  decode_utf8_ignore : list ascii -> string;
  (** [str.strip()]. *)
  str_strip : string -> string;
  (** [str.lower()]. *)
  str_lower : string -> string
}.

(** ** The message-part tree of the mailbox API *)

(** [part['body']]: the keys the services read. *)
Record PartBody := {
  data : option string;
  attachmentId : option string;
  size : option Z
}.

Record Header := {
  name : string;
  value : string
}.

(** A message part; the payload of a message is a part as well.  [parts] is
    [None] when the key ['parts'] is not in the dictionary. *)
#[local] Unset Elimination Schemes.
Inductive Part := mkPart {
  mimeType : option string;
  filename : option string;
  headers : option (list Header);
  body : option PartBody;
  parts : option (list Part)
}.
#[local] Set Elimination Schemes.

(** An entry of the list [_extract_attachments] returns. *)
Record Attachment := {
  att_filename : string;
  att_mimeType : string;
  att_size : Z;
  att_attachmentId : string
}.

(** ['data' in part.get('body', {})], with the value found there. *)
Definition body_data (part : Part) : option string :=
  match body part with
  | Some b => data b
  | None => None
  end.

(** ** Requests and responses of the remote services *)

(** A message as the mailbox API returns it inside a thread. *)
Module Message.
Record t := mk {
  id : string;
  threadId : string;
  payload : option Part;
  snippet : option string
}.
End Message.

(** The response of [threads().get(..., format='full')]. *)
Module Thread.
Record t := mk {
  id : string;
  historyId : option string;
  messages : option (list Message.t)
}.
End Thread.

(** An entry of [response['messages']] of [messages().list]. *)
Module MessageRef.
Record t := mk {
  id : string;
  threadId : string
}.
End MessageRef.

(** The keyword arguments and the response of [messages().list]. *)
Record ListParams := {
  userId : string;
  maxResults : Z;
  pageToken : option string
}.

Record ListResponse := {
  nextPageToken : option string;
  messages : option (list MessageRef.t)
}.

(** A remote label, the response of [labels().list] and the body of
    [labels().create]. *)
Module Label.
Record t := mk {
  id : string;
  name : string
}.
End Label.

Record LabelsResponse := {
  labels : option (list Label.t)
}.

Record LabelObject := {
  lo_name : string;
  messageListVisibility : string;
  labelListVisibility : string
}.

(** The arguments of [anthropic_client.messages.create]: one user message. *)
Record CreateParams := {
  model : string;
  max_tokens : Z;
  content : string
}.

(** A message built by [email_reader]. *)
Module Email.
Record t := mk {
  id : string;
  threadId : string;
  date : string;
  from : string;
  to : string;
  subject : string;
  snippet : string;
  body : string;
  attachments : list Attachment;
  isThreadMessage : bool
}.
End Email.

(** An entry of [result_emails], and the dictionary [email_reader] returns. *)
Record ThreadEntry := {
  threadId : string;
  historyId : string;
  mainEmail : option Email.t;
  threadMessages : list Email.t
}.

Record ReaderOutput := {
  nextPointer : option string;
  emails : list ThreadEntry
}.

(** ** Effects: exceptions, the world of remote services, the call trace *)

(** [HttpError] is what the mailbox client raises; [Exception] is any other
    exception, among them those the services raise themselves. *)
Inductive Exn :=
| HttpError (msg : string)
| Exception (msg : string).

(** One entry per call that leaves the process. *)
Inductive Event :=
| MessagesList (list_params : ListParams)
| ThreadsGet (id : string)
| LabelsList
| LabelsCreate (label_object : LabelObject)
| MessagesModify (message_id : string) (modify_body : gmap string (list string))
| AnthropicCreate (params : CreateParams)
| UtcNow
| DbExecute
| DbCommit
| DbRollback.

(** The remote services as oracles over a world [W]: each call sees the
    world, answers or raises, and leaves a new world. *)
Class Services (W : Type) := {
  users_messages_list : ListParams -> W -> (Exn + ListResponse) * W;
  users_threads_get : string -> W -> (Exn + Thread.t) * W;
  users_labels_list : W -> (Exn + LabelsResponse) * W;
  users_labels_create : LabelObject -> W -> (Exn + Label.t) * W;
  users_messages_modify :
    string -> gmap string (list string) -> W -> (Exn + unit) * W;
  anthropic_messages_create : CreateParams -> W -> (Exn + list string) * W;
  datetime_utcnow : W -> Z * W;
  db_execute : W -> (Exn + unit) * W;
  db_commit : W -> (Exn + unit) * W;
  db_rollback : W -> W
}.

Record St (W : Type) := mkSt {
  world : W;
  trace : list Event
}.
Arguments mkSt {W}.
Arguments world {W}.
Arguments trace {W}.

(** Computations that may raise, over a world and a trace. *)
Definition M (W A : Type) : Type := St W -> (Exn + A) * St W.

#[global] Instance M_ret {W} : MRet (M W) :=
  fun A x s => (inr x, s).

#[global] Instance M_bind {W} : MBind (M W) :=
  fun A B f c s =>
    match c s with
    | (inr x, s') => f x s'
    | (inl e, s') => (inl e, s')
    end.

Definition raise {W A} (e : Exn) : M W A :=
  fun s => (inl e, s).

(** [try: c  except Exception as e: h e] *)
Definition try_except {W A} (c : M W A) (h : Exn -> M W A) : M W A :=
  fun s =>
    match c s with
    | (inr x, s') => (inr x, s')
    | (inl e, s') => h e s'
    end.

(** [try: c  except HttpError as error: h error]; other exceptions pass. *)
Definition try_except_http {W A} (c : M W A) (h : string -> M W A) : M W A :=
  try_except c (fun e =>
    match e with
    | HttpError msg => h msg
    | Exception _ => raise e
    end).

(** A call to a remote service: recorded, then answered by the oracle. *)
Definition call {W A} (ev : Event) (f : W -> (Exn + A) * W) : M W A :=
  fun s =>
    let (r, w) := f (world s) in
    (r, {| world := w; trace := trace s ++ [ev] |}).

(** A [for] loop that threads an accumulator. *)
Fixpoint for_each {W A B} (l : list A) (f : A -> B -> M W B) (acc : B) : M W B :=
  match l with
  | [] => mret acc
  | x :: l' => acc' ← f x acc; for_each l' f acc'
  end.

Section GmailService.
Context `{PyRuntime} {W : Type} `{Services W}.

(** [GmailService._decode_body] *)
Definition _decode_body (d : string) : string :=
  if truthy d then
    match urlsafe_b64decode d with
    | Some decoded_bytes => decode_utf8_ignore decoded_bytes
    | None => ""
    end
  else "".

(** What one iteration of the loop of [_find_body_in_parts] does: leave the
    function with a result, or go on to the next part with [body_text]. *)
Inductive LoopStep :=
| Return (result : string)
| Continue (body_text : string).

(** The loop body of [_find_body_in_parts] for one [part], entered with the
    current [body_text].  The inner [fix] is the recursive call
    [self._find_body_in_parts(part['parts'])]. *)
Fixpoint find_body_step (part : Part) (body_text : string) : LoopStep :=
  match part with
  | mkPart mt _ _ b sub =>
      let mime_type := default "" mt in
      let has_data := match b with Some pb => data pb | None => None end in
      let nested :=
        match sub with
        | Some ps =>
            Some ((fix loop (ps : list Part) (bt : string) : string :=
                     match ps with
                     | [] => bt
                     | p :: ps' =>
                         match find_body_step p bt with
                         | Return r => r
                         | Continue bt' => loop ps' bt'
                         end
                     end) ps "")
        | None => None
        end in
      let body_text := match nested with Some r => r | None => body_text end in
      if match nested with Some r => truthy r | None => false end
      then Return body_text
      else
        match has_data with
        | Some d =>
            if String.eqb mime_type "text/plain" then Return (_decode_body d)
            else if String.eqb mime_type "text/html" then Continue (_decode_body d)
            else Continue body_text
        | None => Continue body_text
        end
  end.

(** The [for part in parts] loop, entered with [body_text]. *)
Fixpoint find_body_loop (ps : list Part) (body_text : string) : string :=
  match ps with
  | [] => body_text
  | p :: ps' =>
      match find_body_step p body_text with
      | Return r => r
      | Continue bt' => find_body_loop ps' bt'
      end
  end.

(** [GmailService._find_body_in_parts]: an empty list is falsy, so the
    early [return ""] coincides with the loop that never runs. *)
Definition _find_body_in_parts (ps : list Part) : string :=
  find_body_loop ps "".

(** The attachments one [part] contributes in [_extract_attachments]:
    those of its nested parts first, then the part itself when it carries a
    file name and a body with an attachment identifier. *)
Fixpoint part_attachments (part : Part) : list Attachment :=
  match part with
  | mkPart mt fn _ b sub =>
      match sub with
      | Some ps => flat_map part_attachments ps
      | None => []
      end ++
      match b with
      | Some pb =>
          if truthy_opt fn && truthy_opt (attachmentId pb)
          then [ {| att_filename := default "" fn;
                    att_mimeType := default "" mt;
                    att_size := default 0 (size pb);
                    att_attachmentId := default "" (attachmentId pb) |} ]
          else []
      | None => []
      end
  end.

(** [GmailService._extract_attachments] *)
Definition _extract_attachments (ps : list Part) : list Attachment :=
  flat_map part_attachments ps.

(** [GmailService._extract_headers]: a later header of the same name
    replaces an earlier one. *)
Definition header_names : list string := ["Date"; "From"; "To"; "Subject"].

Definition _extract_headers (hs : list Header) : gmap string string :=
  foldl (fun header_dict header =>
           if bool_decide (name header ∈ header_names)
           then <[name header := value header]> header_dict
           else header_dict)
        ∅ hs.

(** The body of the inner loop of [email_reader]: the dictionary appended
    to [thread_messages] for [msg]. *)
Definition build_message (is_thread_message : bool) (msg : Message.t) : Email.t :=
  let payload := Message.payload msg in
  let hdrs := _extract_headers (default [] (payload ≫= headers)) in
  let body_text :=
    match payload with
    | Some pl =>
        match parts pl with
        | Some ps => _find_body_in_parts ps
        | None =>
            match body_data pl with
            | Some d => _decode_body d
            | None => ""
            end
        end
    | None => ""
    end in
  let attachments := _extract_attachments (default [] (payload ≫= parts)) in
  {| Email.id := Message.id msg;
     Email.threadId := Message.threadId msg;
     Email.date := default "" (hdrs !! "Date");
     Email.from := default "" (hdrs !! "From");
     Email.to := default "" (hdrs !! "To");
     Email.subject := default "" (hdrs !! "Subject");
     Email.snippet := default "" (Message.snippet msg);
     Email.body := body_text;
     Email.attachments := attachments;
     Email.isThreadMessage := is_thread_message |}.

(** [thread_messages] of a thread response: every message is tagged with
    [len(thread.get('messages', [])) > 1]. *)
Definition build_thread_messages (thread : Thread.t) : list Email.t :=
  let msgs := default [] (Thread.messages thread) in
  map (build_message (1 <? Z.of_nat (length msgs))%Z) msgs.

(** The entry [email_reader] appends for a thread response, if any. *)
Definition build_entry (thread : Thread.t) : option ThreadEntry :=
  match build_thread_messages thread with
  | main_email :: _ =>
      Some {| threadId := Thread.id thread;
              historyId := default "" (Thread.historyId thread);
              mainEmail := Some main_email;
              threadMessages := build_thread_messages thread |}
  | [] => None
  end.

(** The body of the outer loop of [email_reader]. *)
Definition read_thread (message : MessageRef.t) (result_emails : list ThreadEntry)
  : M W (list ThreadEntry) :=
  thread ← call (ThreadsGet (MessageRef.threadId message))
                (users_threads_get (MessageRef.threadId message));
  match build_entry thread with
  | Some entry => mret (result_emails ++ [entry])
  | None => mret result_emails
  end.

(** [GmailService.email_reader] *)
Definition email_reader (last_pointer : option string) : M W ReaderOutput :=
  try_except_http
    (let list_params :=
       {| userId := "me";
          maxResults := 5;
          pageToken := if truthy_opt last_pointer then last_pointer else None |} in
     response ← call (MessagesList list_params) (users_messages_list list_params);
     let next_pointer := nextPageToken response in
     result_emails ← for_each (default [] (messages response)) read_thread [];
     mret {| nextPointer := next_pointer; emails := result_emails |})
    (fun error => raise (Exception ("Gmail API error: " +:+ error))).

(** The search loop of [get_or_create_label_id]. *)
Fixpoint find_label (ls : list Label.t) (label_name : string) : option string :=
  match ls with
  | [] => None
  | label :: ls' =>
      if String.eqb (Label.name label) label_name then Some (Label.id label)
      else find_label ls' label_name
  end.

(** [GmailService.get_or_create_label_id] *)
Definition get_or_create_label_id (label_name : string) : M W string :=
  try_except_http
    (results ← call LabelsList users_labels_list;
     match find_label (default [] (labels results)) label_name with
     | Some id => mret id
     | None =>
         let label_object :=
           {| lo_name := label_name;
              messageListVisibility := "show";
              labelListVisibility := "labelShow" |} in
         created_label ← call (LabelsCreate label_object)
                              (users_labels_create label_object);
         mret (Label.id created_label)
     end)
    (fun error => raise (Exception ("Error managing Gmail labels: " +:+ error))).

(** The request dictionary [modify_message_labels] builds. *)
Definition build_modify_body (add_label_ids remove_label_ids : option (list string))
  : gmap string (list string) :=
  let modify_body : gmap string (list string) := ∅ in
  let modify_body :=
    match add_label_ids with
    | Some l => if truthy_list l then <["addLabelIds" := l]> modify_body else modify_body
    | None => modify_body
    end in
  match remove_label_ids with
  | Some l => if truthy_list l then <["removeLabelIds" := l]> modify_body else modify_body
  | None => modify_body
  end.

(** [GmailService.modify_message_labels] *)
Definition modify_message_labels (message_id : string)
    (add_label_ids remove_label_ids : option (list string)) : M W unit :=
  try_except_http
    (let modify_body := build_modify_body add_label_ids remove_label_ids in
     call (MessagesModify message_id modify_body)
          (users_messages_modify message_id modify_body))
    (fun error => raise (Exception ("Error modifying message labels: " +:+ error))).

End GmailService.

(** ** [LabelingService] *)

(** The line feed ["\n"]. *)
Definition LF : string := String (ascii_of_nat 10) "".

Section LabelingService.
Context `{PyRuntime} {W : Type} `{Services W}.

(** [LabelingService.GMAIL_SYSTEM_LABELS] *)
Definition GMAIL_SYSTEM_LABELS : list string :=
  ["INBOX"; "IMPORTANT"; "STARRED"; "CATEGORY_PROMOTIONS";
   "CATEGORY_UPDATES"; "CATEGORY_SOCIAL"; "CATEGORY_FORUMS"].

Definition prompt : string :=
"Based on this email and its thread:
- If it asks the user to perform an action → respond with 'action_needed'
- If it provides useful information → respond with 'FYI'
- If it contains suspicious files or short URLs → respond with 'spam'
- Otherwise → respond with 'extra'

Return only one word: action_needed, FYI, spam, or extra.

Email content:
".

Definition valid_labels : list string :=
  ["action_needed"; "fyi"; "spam"; "extra"].

(** The request [_analyze_with_anthropic] sends for [combined_text]. *)
Definition create_params (combined_text : string) : CreateParams :=
  {| model := "claude-3-5-sonnet-20241022";
     max_tokens := 10;
     content := prompt +:+ combined_text |}.

(** [LabelingService._analyze_with_anthropic].  [message.content[0]] raises
    on an empty content list; the [except] clause covers the whole body. *)
Definition _analyze_with_anthropic (combined_text : string) : M W string :=
  try_except
    (message ← call (AnthropicCreate (create_params combined_text))
                    (anthropic_messages_create (create_params combined_text));
     match message with
     | [] => raise (Exception "list index out of range")
     | text :: _ =>
         let label := str_lower (str_strip text) in
         if bool_decide (label ∈ valid_labels) then mret label
         else mret "extra"
     end)
    (fun e => mret "extra").

(** The text [label_email] hands to the classifier: the body of the main
    message, then a line feed and the body for every entry of
    [thread_messages] whose body is not empty. *)
Definition combined_text_of (main_email : Email.t) (thread_messages : list Email.t)
  : string :=
  foldl (fun combined_text msg =>
           let body := Email.body msg in
           if truthy body then combined_text +:+ LF +:+ body
           else combined_text)
        (Email.body main_email) thread_messages.

Definition label_name_map : gmap string string :=
  list_to_map [("action_needed", "ACTION_NEEDED"); ("fyi", "FYI");
               ("spam", "SPAM"); ("extra", "EXTRA")].

(** The body of the loop of [label_email] for one entry. *)
Definition label_thread (email : ThreadEntry) : M W unit :=
  match mainEmail email with
  | None => mret tt
  | Some main_email =>
      if Email.isThreadMessage main_email then mret tt
      else
        let combined_text := combined_text_of main_email (threadMessages email) in
        label ← _analyze_with_anthropic combined_text;
        _ ← try_except
              (modify_message_labels (Email.id main_email)
                 None (Some GMAIL_SYSTEM_LABELS))
              (fun e => mret tt);
        let label_name := default "EXTRA" (label_name_map !! label) in
        try_except
          (label_id ← get_or_create_label_id label_name;
           modify_message_labels (Email.id main_email) (Some [label_id]) None)
          (fun e => mret tt)
  end.

(** [LabelingService.label_email] *)
Definition label_email (email_reader_output : ReaderOutput) : M W string :=
  _ ← for_each (emails email_reader_output)
               (fun email _ => label_thread email) tt;
  mret "Labeling complete".

End LabelingService.

(** ** [OnboardingWorker] *)

(** The columns of [User] the worker reads and writes, with the identifying
    ones.  [onboarding_complete] is an integer column, [last_sync] a time
    stamp counted in clock ticks. *)
Record User := {
  user_id : string;
  email : string;
  last_pointer : option string;
  onboarding_complete : Z;
  last_sync : option Z
}.

Record OnboardingWorker := {
  gmail_token : string;
  anthropic_api_key : string
}.

Section Worker.
Context `{PyRuntime} {W : Type} `{Services W}.

(** The assignments of [process_user_emails] after labeling. *)
Definition advance (user : User) (email_reader_output : ReaderOutput) (now : Z) : User :=
  {| user_id := user_id user;
     email := email user;
     last_pointer := nextPointer email_reader_output;
     onboarding_complete :=
       if truthy_opt (nextPointer email_reader_output)
       then onboarding_complete user
       else 1;
     last_sync := Some now |}.

(** [OnboardingWorker.process_user_emails]; the result is the row of
    [user] as the session holds it when the method returns: the committed
    update, or the row as it was after an early return or a rollback. *)
Definition process_user_emails (user : User) : M W User :=
  try_except
    (email_reader_output ← email_reader (last_pointer user);
     if negb (truthy_list (emails email_reader_output)) then mret user
     else
       _ ← label_email email_reader_output;
       now ← call UtcNow (fun w => let (t, w') := datetime_utcnow w in (inr t, w'));
       let user' := advance user email_reader_output now in
       _ ← call DbCommit db_commit;
       mret user')
    (fun e =>
       _ ← call DbRollback (fun w => (inr tt, db_rollback w));
       mret user).

(** The rows the query of [run_onboarding_cycle] selects. *)
Definition pending (user : User) : bool := onboarding_complete user =? 0.

(** The loop of [run_onboarding_cycle] over the table: the rows the query
    selected are processed in order, the others are not visited. *)
Fixpoint process_users (db : list User) : M W (list User) :=
  match db with
  | [] => mret []
  | user :: rest =>
      user' ← (if pending user then process_user_emails user else mret user);
      rest' ← process_users rest;
      mret (user' :: rest')
  end.

(** [OnboardingWorker.run_onboarding_cycle] on the user table [db]; the
    result is the table after the cycle. *)
Definition run_onboarding_cycle (db : list User) : M W (list User) :=
  try_except
    (_ ← call DbExecute db_execute;
     process_users db)
    (fun e => mret db).

(** [cycles] iterations of the loop of [start]. *)
Fixpoint run_cycles (cycles : nat) (db : list User) : M W (list User) :=
  match cycles with
  | O => mret db
  | S n => db' ← run_onboarding_cycle db; run_cycles n db'
  end.

(** [OnboardingWorker.start], stopped after [cycles] iterations. *)
Definition start (worker : OnboardingWorker) (cycles : nat) (db : list User)
  : M W (list User) :=
  if negb (truthy (gmail_token worker)) || negb (truthy (anthropic_api_key worker))
  then mret db
  else run_cycles cycles db.

End Worker.

(** ** A reference implementation of the library functions

    Text is held as its UTF-8 bytes.  The decoder follows the standard
    library's Base64 decoder in its lenient mode, and the UTF-8 decoder with
    the [ignore] error handler; [strip] and [lower] act on the ASCII white
    space and the ASCII capitals, which is all the four labels can meet. *)
Module Reference.

Definition code (c : ascii) : Z := Z.of_N (N_of_ascii c).
Definition chr (n : Z) : ascii := ascii_of_N (Z.to_N n).

Definition between (lo n hi : Z) : bool := (lo <=? n) && (n <=? hi).

(** The value of a character of the Base64 alphabet; [-] and [_] stand for
    [+] and [/] after the URL-safe translation. *)
Definition b64_value (c : ascii) : option Z :=
  let n := code c in
  if between 65 n 90 then Some (n - 65)
  else if between 97 n 122 then Some (n - 71)
  else if between 48 n 57 then Some (n + 4)
  else if (n =? 43) || (n =? 45) then Some 62
  else if (n =? 47) || (n =? 95) then Some 63
  else None.

(** The decoding loop: [quad_pos] counts the characters of the current
    group of four, [leftchar] holds the bits not yet written, [pads] the
    padding characters seen since the last data character.  Characters out
    of the alphabet are skipped; a complete padding ends the input. *)
Fixpoint a2b_base64 (s : list ascii) (quad_pos leftchar pads : Z)
    (bin_data : list ascii) : option (list ascii) :=
  match s with
  | [] => if quad_pos =? 0 then Some bin_data else None
  | c :: s' =>
      if code c =? 61 then
        if 2 <=? quad_pos then
          if 4 <=? quad_pos + (pads + 1) then Some bin_data
          else a2b_base64 s' quad_pos leftchar (pads + 1) bin_data
        else a2b_base64 s' quad_pos leftchar pads bin_data
      else
        match b64_value c with
        | None => a2b_base64 s' quad_pos leftchar pads bin_data
        | Some this_ch =>
            if quad_pos =? 0 then
              a2b_base64 s' 1 this_ch 0 bin_data
            else if quad_pos =? 1 then
              a2b_base64 s' 2 (Z.land this_ch 15) 0
                (bin_data ++ [chr (Z.lor (Z.shiftl leftchar 2) (Z.shiftr this_ch 4))])
            else if quad_pos =? 2 then
              a2b_base64 s' 3 (Z.land this_ch 3) 0
                (bin_data ++ [chr (Z.lor (Z.shiftl leftchar 4) (Z.shiftr this_ch 2))])
            else
              a2b_base64 s' 0 0 0
                (bin_data ++ [chr (Z.lor (Z.shiftl leftchar 6) this_ch)])
        end
  end.

(** A [str] argument is encoded as ASCII first, which raises on any other
    character. *)
Definition urlsafe_b64decode (s : string) : option (list ascii) :=
  let cs := list_ascii_of_string s in
  if forallb (fun c => code c <? 128) cs then a2b_base64 cs 0 0 0 []
  else None.

Definition is_continuation (c : ascii) : bool := between 128 (code c) 191.

(** Whether [c2] may follow the lead byte [c] of a three- or four-byte
    sequence: a continuation byte that gives neither an overlong form, nor
    a surrogate, nor a code point above U+10FFFF. *)
Definition second_ok (c c2 : ascii) : bool :=
  is_continuation c2 &&
  negb ((code c =? 224) && (code c2 <? 160)) &&
  negb ((code c =? 237) && (160 <=? code c2)) &&
  negb ((code c =? 240) && (code c2 <? 144)) &&
  negb ((code c =? 244) && (144 <=? code c2)).

(** The bytes that survive [decode('utf-8', errors='ignore')]: well-formed
    sequences are kept; an invalid start byte is dropped; a sequence broken
    by an invalid continuation is dropped up to that byte; a sequence cut
    by the end of the input is dropped. *)
Fixpoint utf8_ignore (bs : list ascii) : list ascii :=
  match bs with
  | [] => []
  | c :: t1 =>
      if code c <? 128 then c :: utf8_ignore t1
      else if between 194 (code c) 223 then
        match t1 with
        | [] => []
        | c2 :: t2 =>
            if is_continuation c2 then c :: c2 :: utf8_ignore t2
            else utf8_ignore t1
        end
      else if between 224 (code c) 239 then
        match t1 with
        | [] => []
        | c2 :: t2 =>
            if second_ok c c2 then
              match t2 with
              | [] => []
              | c3 :: t3 =>
                  if is_continuation c3 then c :: c2 :: c3 :: utf8_ignore t3
                  else utf8_ignore t2
              end
            else utf8_ignore t1
        end
      else if between 240 (code c) 244 then
        match t1 with
        | [] => []
        | c2 :: t2 =>
            if second_ok c c2 then
              match t2 with
              | [] => []
              | c3 :: t3 =>
                  if is_continuation c3 then
                    match t3 with
                    | [] => []
                    | c4 :: t4 =>
                        if is_continuation c4
                        then c :: c2 :: c3 :: c4 :: utf8_ignore t4
                        else utf8_ignore t3
                    end
                  else utf8_ignore t2
              end
            else utf8_ignore t1
        end
      else utf8_ignore t1
  end.

Definition decode_utf8_ignore (bs : list ascii) : string :=
  string_of_list_ascii (utf8_ignore bs).

(** The ASCII characters [str.strip] removes. *)
Definition is_space (c : ascii) : bool :=
  between 9 (code c) 13 || between 28 (code c) 32.

Fixpoint lstrip (cs : list ascii) : list ascii :=
  match cs with
  | [] => []
  | c :: cs' => if is_space c then lstrip cs' else cs
  end.

Definition strip (s : string) : string :=
  string_of_list_ascii
    (rev (lstrip (rev (lstrip (list_ascii_of_string s))))).

Definition lower_char (c : ascii) : ascii :=
  if between 65 (code c) 90 then chr (code c + 32) else c.

Definition lower (s : string) : string :=
  string_of_list_ascii (map lower_char (list_ascii_of_string s)).

End Reference.

#[global] Instance reference_runtime : PyRuntime := {|
  urlsafe_b64decode := Reference.urlsafe_b64decode;
  decode_utf8_ignore := Reference.decode_utf8_ignore;
  str_strip := Reference.strip;
  str_lower := Reference.lower
|}.

(** ** A world to run the services in

    One mailbox, its labels, a scripted text-generation service, a clock and
    a database session that accepts every commit. *)
Record World := {
  w_pages : gmap (option string) ListResponse;
  w_threads : gmap string Thread.t;
  w_labels : list Label.t;
  w_message_labels : gmap string (gset string);
  w_answers : list (Exn + list string);
  w_clock : Z
}.

(** Modelled from the spec: the mailbox provider's side of "message label
    add/remove", which is not part of the repository.  The labels of a
    message are a set; a modify request adds the labels listed under
    [addLabelIds], removes those listed under [removeLabelIds], and a list
    that is not in the request changes nothing. *)
Definition apply_modify (modify_body : gmap string (list string))
    (remote : gset string) : gset string :=
  (remote ∪ list_to_set (default [] (modify_body !! "addLabelIds")))
    ∖ list_to_set (default [] (modify_body !! "removeLabelIds")).

Definition world_messages_list (params : ListParams) (w : World)
  : (Exn + ListResponse) * World :=
  match w_pages w !! pageToken params with
  | Some response => (inr response, w)
  | None => (inl (HttpError "Invalid pageToken"), w)
  end.

Definition world_threads_get (id : string) (w : World) : (Exn + Thread.t) * World :=
  match w_threads w !! id with
  | Some thread => (inr thread, w)
  | None => (inl (HttpError "Requested entity was not found"), w)
  end.

Definition world_labels_list (w : World) : (Exn + LabelsResponse) * World :=
  (inr {| labels := Some (w_labels w) |}, w).

Definition world_labels_create (label_object : LabelObject) (w : World)
  : (Exn + Label.t) * World :=
  let created := {| Label.id := "Label_" +:+ lo_name label_object;
                    Label.name := lo_name label_object |} in
  (inr created,
   {| w_pages := w_pages w; w_threads := w_threads w;
      w_labels := w_labels w ++ [created];
      w_message_labels := w_message_labels w;
      w_answers := w_answers w; w_clock := w_clock w |}).

Definition world_messages_modify (message_id : string)
    (modify_body : gmap string (list string)) (w : World) : (Exn + unit) * World :=
  match w_message_labels w !! message_id with
  | Some remote =>
      (inr tt,
       {| w_pages := w_pages w; w_threads := w_threads w;
          w_labels := w_labels w;
          w_message_labels :=
            <[message_id := apply_modify modify_body remote]> (w_message_labels w);
          w_answers := w_answers w; w_clock := w_clock w |})
  | None => (inl (HttpError "Requested entity was not found"), w)
  end.

Definition world_messages_create (params : CreateParams) (w : World)
  : (Exn + list string) * World :=
  match w_answers w with
  | answer :: rest =>
      (answer,
       {| w_pages := w_pages w; w_threads := w_threads w;
          w_labels := w_labels w; w_message_labels := w_message_labels w;
          w_answers := rest; w_clock := w_clock w |})
  | [] => (inl (Exception "Connection error"), w)
  end.

Definition world_utcnow (w : World) : Z * World :=
  (w_clock w,
   {| w_pages := w_pages w; w_threads := w_threads w;
      w_labels := w_labels w; w_message_labels := w_message_labels w;
      w_answers := w_answers w; w_clock := w_clock w + 1 |}).

#[global] Instance world_services : Services World := {|
  users_messages_list := world_messages_list;
  users_threads_get := world_threads_get;
  users_labels_list := world_labels_list;
  users_labels_create := world_labels_create;
  users_messages_modify := world_messages_modify;
  anthropic_messages_create := world_messages_create;
  datetime_utcnow := world_utcnow;
  db_execute := fun w => (inr tt, w);
  db_commit := fun w => (inr tt, w);
  db_rollback := fun w => w
|}.

(** The remote label set of a message, empty when the message is unknown. *)
Definition remote_labels (w : World) (message_id : string) : gset string :=
  default ∅ (w_message_labels w !! message_id).

(** *** Sample data *)

Definition text_part (mime data_b64 : string) : Part :=
  {| mimeType := Some mime; filename := Some ""; headers := None;
     body := Some {| data := Some data_b64; attachmentId := None; size := None |};
     parts := None |}.

Definition multipart (mime : string) (ps : list Part) : Part :=
  {| mimeType := Some mime; filename := Some ""; headers := None;
     body := Some {| data := None; attachmentId := None; size := Some 0 |};
     parts := Some ps |}.

(** ["aGk="] is [hi], ["PGI-aGk8L2I-"] is [<b>hi</b>]. *)
Definition plain_hi : Part := text_part "text/plain" "aGk=".
Definition html_hi : Part := text_part "text/html" "PGI-aGk8L2I-".

Definition empty_world : World :=
  {| w_pages := ∅; w_threads := ∅; w_labels := []; w_message_labels := ∅;
     w_answers := []; w_clock := 0 |}.

Definition start_state (w : World) : St World := {| world := w; trace := [] |}.

(** ** Vocabulary of the statements *)

(** A part that is plain text with inline data, and that data. *)
Definition plain_data (part : Part) : option string :=
  if String.eqb (default "" (mimeType part)) "text/plain" then body_data part
  else None.

Definition html_data (part : Part) : option string :=
  if String.eqb (default "" (mimeType part)) "text/html" then body_data part
  else None.

(** A list of parts none of which has a nested part list. *)
Definition flat (ps : list Part) : bool :=
  forallb (fun p => bool_decide (parts p = None)) ps.

(** The inline data of the first plain-text part of a list. *)
Fixpoint first_plain (ps : list Part) : option string :=
  match ps with
  | [] => None
  | p :: ps' =>
      match plain_data p with
      | Some d => Some d
      | None => first_plain ps'
      end
  end.

(** The inline data of all plain-text parts, and of all HTML parts, of a
    part tree, at any depth. *)
Fixpoint tree_data (select : Part -> option string) (part : Part) : list string :=
  match part with
  | mkPart mt fn hs b sub =>
      match select (mkPart mt fn hs b sub) with
      | Some d => [d]
      | None => []
      end ++
      match sub with
      | Some ps => flat_map (tree_data select) ps
      | None => []
      end
  end.

(** A tree with a nested HTML part followed by a plain-text sibling. *)
Definition html_nested_first : list Part :=
  [multipart "multipart/related" [html_hi]; plain_hi].

(** The label [_analyze_with_anthropic] makes of an answer of the
    provider. *)
Definition label_of_answer `{PyRuntime} (answer : Exn + list string) : string :=
  match answer with
  | inr (text :: _) =>
      let label := str_lower (str_strip text) in
      if bool_decide (label ∈ valid_labels) then label else "extra"
  | inr [] => "extra"
  | inl _ => "extra"
  end.

(** The state after the [db.rollback()] of [process_user_emails]. *)
Definition rolled_back {W} `{Services W} (s : St W) : St W :=
  {| world := db_rollback (world s); trace := trace s ++ [DbRollback] |}.

(** The state after the query of [run_onboarding_cycle] has answered. *)
Definition queried {W} `{Services W} (s : St W) : St W :=
  {| world := snd (db_execute (world s)); trace := trace s ++ [DbExecute] |}.

(** A message whose payload has inline data only. *)
Definition simple_message (id thread_id data_b64 : string) : Message.t :=
  {| Message.id := id;
     Message.threadId := thread_id;
     Message.payload :=
       Some {| mimeType := Some "text/plain"; filename := Some "";
               headers := Some [ {| name := "Subject"; value := "Form" |} ];
               body := Some {| data := Some data_b64; attachmentId := None;
                               size := Some 2 |};
               parts := None |};
     Message.snippet := Some "hi" |}.

(** A thread of one message with body [hi], and one of two messages. *)
Definition single_thread : Thread.t :=
  {| Thread.id := "t1"; Thread.historyId := Some "7";
     Thread.messages := Some [simple_message "m1" "t1" "aGk="] |}.

Definition reply_thread : Thread.t :=
  {| Thread.id := "t2"; Thread.historyId := Some "9";
     Thread.messages := Some [simple_message "m2" "t2" "aGk=";
                              simple_message "m3" "t2" "aGk="] |}.

(** A mailbox whose only page lists the message of [single_thread] and has no
    next page; the text-generation service answers [ FYI] and a line feed. *)
Definition inbox_world : World :=
  {| w_pages :=
       {[ None := {| nextPageToken := None;
                     messages := Some [ {| MessageRef.id := "m1";
                                           MessageRef.threadId := "t1" |} ] |} ]};
     w_threads := {[ "t1" := single_thread ]};
     w_labels := [];
     w_message_labels := {[ "m1" := {[ "INBOX"; "UNREAD" ]} ]};
     w_answers := [inr [" FYI" +:+ LF]];
     w_clock := 100 |}.

(** A mailbox with nothing in it: the page has no message and no next page. *)
Definition exhausted_world : World :=
  {| w_pages := {[ None := {| nextPageToken := None; messages := None |} ]};
     w_threads := ∅; w_labels := []; w_message_labels := ∅;
     w_answers := []; w_clock := 100 |}.

Definition alice : User :=
  {| user_id := "u1"; email := "alice@example.com"; last_pointer := None;
     onboarding_complete := 0; last_sync := None |}.

(** A user whose stored page token the mailbox does not accept. *)
Definition bob : User :=
  {| user_id := "u2"; email := "bob@example.com"; last_pointer := Some "stale";
     onboarding_complete := 0; last_sync := Some 5 |}.

(** The outcome of the commit [process_user_emails] attempts after reading
    the batch [out] in state [s1]: labeling and the clock come first. *)
Definition commit_attempt `{PyRuntime} {W} `{Services W}
    (out : ReaderOutput) (s1 : St W) : Exn + unit :=
  let s2 := snd (label_email out s1) in
  fst (db_commit (snd (datetime_utcnow (world s2)))).

(** How a row may change over cycles: it keeps its identity, a row whose
    flag is set is frozen, a row whose flag is [0] has flag [0] or [1]
    afterwards. *)
Definition evolves (user user' : User) : Prop :=
  user_id user' = user_id user
  /\ (onboarding_complete user <> 0 -> user' = user)
  /\ (onboarding_complete user = 0 ->
        onboarding_complete user' = 0 \/ onboarding_complete user' = 1).

(** The entry the reader builds for [reply_thread], and its main message. *)
Definition reply_main : Email.t :=
  build_message true (simple_message "m2" "t2" "aGk=").

Definition reply_entry : ThreadEntry :=
  {| threadId := "t2"; historyId := "9";
     mainEmail := Some reply_main;
     threadMessages := build_thread_messages reply_thread |}.

(** ** Vocabulary for the further properties *)

(** The value of the last header named [n] in a header list. *)
Fixpoint last_value (n : string) (hs : list Header) : option string :=
  match hs with
  | [] => None
  | h :: hs' =>
      match last_value n hs' with
      | Some v => Some v
      | None => if String.eqb (name h) n then Some (value h) else None
      end
  end.

(** The inline data of the last HTML part of a list. *)
Fixpoint last_html (ps : list Part) : option string :=
  match ps with
  | [] => None
  | p :: ps' =>
      match last_html ps' with
      | Some d => Some d
      | None => html_data p
      end
  end.

(** All parts of a tree, a part before the parts nested in it. *)
Fixpoint tree_parts (part : Part) : list Part :=
  match part with
  | mkPart mt fn hs b sub =>
      mkPart mt fn hs b sub ::
      match sub with
      | Some ps => flat_map tree_parts ps
      | None => []
      end
  end.

(** The test of [_extract_attachments] on one part, and the entry it
    appends. *)
Definition is_attachment (part : Part) : bool :=
  match body part with
  | Some pb => truthy_opt (filename part) && truthy_opt (attachmentId pb)
  | None => false
  end.

Definition attachment_of (part : Part) : Attachment :=
  {| att_filename := default "" (filename part);
     att_mimeType := default "" (mimeType part);
     att_size := default 0 (body part ≫= size);
     att_attachmentId := default "" (body part ≫= attachmentId) |}.

(** A file attached to a message, and a multipart that holds a text and the
    file. *)
Definition pdf_part : Part :=
  {| mimeType := Some "application/pdf"; filename := Some "form.pdf";
     headers := None;
     body := Some {| data := None; attachmentId := Some "att-1"; size := Some 1024 |};
     parts := None |}.

Definition mixed_message : list Part :=
  [multipart "multipart/mixed"
     [multipart "multipart/alternative" [plain_hi; html_hi]; pdf_part]].

(** What the body text of a list of part trees can be: the text the loop was
    entered with, nothing, or the decoded inline data of a plain-text or HTML
    part of the trees. *)
Definition body_from `{PyRuntime} (ps : list Part) (body_text result : string)
  : Prop :=
  result = body_text
  \/ result = ""
  \/ exists d, (d ∈ flat_map (tree_data plain_data) ps
                \/ d ∈ flat_map (tree_data html_data) ps)
               /\ result = _decode_body d.

(** The text a loop step carries, returned or remembered. *)
Definition step_text (st : LoopStep) : string :=
  match st with
  | Return r => r
  | Continue r => r
  end.

(** The keyword arguments [email_reader] calls [messages().list] with. *)
Definition list_params_of (last_pointer : option string) : ListParams :=
  {| userId := "me";
     maxResults := 5;
     pageToken := if truthy_opt last_pointer then last_pointer else None |}.

(** The thread requests [email_reader] makes for the listed messages. *)
Definition thread_requests (ms : list MessageRef.t) : list Event :=
  map (fun m => ThreadsGet (MessageRef.threadId m)) ms.

(** An entry as the reader builds them: it has messages, its main message
    is the first of them, and every message carries the same flag, set
    exactly when the entry has more than one message. *)
Definition entry_wf (e : ThreadEntry) : Prop :=
  threadMessages e <> []
  /\ mainEmail e = head (threadMessages e)
  /\ Forall (fun m => Email.isThreadMessage m
                      = bool_decide (1 < length (threadMessages e))%nat)
            (threadMessages e).

(** The state after a call [ev] that left the world [w]. *)
Definition logged {W} (ev : Event) (w : W) (s : St W) : St W :=
  {| world := w; trace := trace s ++ [ev] |}.

(** The body of [labels().create] for a label name. *)
Definition label_object_of (label_name : string) : LabelObject :=
  {| lo_name := label_name;
     messageListVisibility := "show";
     labelListVisibility := "labelShow" |}.

(** The two modify requests of [label_email] for a message. *)
Definition removal_request (message_id : string) : Event :=
  MessagesModify message_id {[ "removeLabelIds" := GMAIL_SYSTEM_LABELS ]}.

Definition add_request (message_id label_id : string) : Event :=
  MessagesModify message_id {[ "addLabelIds" := [label_id] ]}.

(** The remote label names [label_email] works with. *)
Definition label_names : list string := ["ACTION_NEEDED"; "FYI"; "SPAM"; "EXTRA"].

(** The calls that may follow the label listing when [label_email] resolves
    the label [label_name] for a message: a creation when the label is new,
    then the request that adds it, unless a call raised. *)
Definition resolve_tail (message_id label_name : string) (tail : list Event)
  : Prop :=
  tail = []
  \/ tail = [LabelsCreate (label_object_of label_name)]
  \/ (exists label_id, tail = [add_request message_id label_id])
  \/ (exists label_id, tail = [LabelsCreate (label_object_of label_name);
                               add_request message_id label_id]).

(** A mailbox that already has the label [FYI]. *)
Definition labelled_world : World :=
  {| w_pages := w_pages inbox_world; w_threads := w_threads inbox_world;
     w_labels := [ {| Label.id := "Label_7"; Label.name := "EXTRA" |};
                   {| Label.id := "Label_9"; Label.name := "FYI" |};
                   {| Label.id := "Label_12"; Label.name := "FYI" |} ];
     w_message_labels := w_message_labels inbox_world;
     w_answers := w_answers inbox_world; w_clock := w_clock inbox_world |}.

(** An entry [label_email] works on: it has a main message that is not
    flagged. *)
Definition unflagged (e : ThreadEntry) : bool :=
  match mainEmail e with
  | Some main_email => negb (Email.isThreadMessage main_email)
  | None => false
  end.

Definition is_classification (ev : Event) : bool :=
  match ev with
  | AnthropicCreate _ => true
  | _ => false
  end.

(** The Gmail label name [label_email] maps a classifier label to. *)
Definition label_name_of (label : string) : string :=
  default "EXTRA" (label_name_map !! label).

(** The calls [label_email] may make for a batch: a classification of the
    combined text of an unflagged entry, a label listing, the creation of
    one of the four labels, and a modify request on the main message of an
    unflagged entry that either removes the system labels or adds one
    label. *)
Definition label_event_ok (batch : list ThreadEntry) (ev : Event) : Prop :=
  match ev with
  | AnthropicCreate params =>
      exists e main_email,
        e ∈ batch /\ mainEmail e = Some main_email
        /\ Email.isThreadMessage main_email = false
        /\ params = create_params (combined_text_of main_email (threadMessages e))
  | LabelsList => True
  | LabelsCreate label_object =>
      exists n, n ∈ label_names /\ label_object = label_object_of n
  | MessagesModify message_id modify_body =>
      (exists e main_email,
         e ∈ batch /\ mainEmail e = Some main_email
         /\ Email.isThreadMessage main_email = false
         /\ Email.id main_email = message_id)
      /\ (modify_body = {[ "removeLabelIds" := GMAIL_SYSTEM_LABELS ]}
          \/ exists label_id, modify_body = {[ "addLabelIds" := [label_id] ]})
  | _ => False
  end.

(** Kinds of calls. *)
Definition is_list_request (ev : Event) : bool :=
  match ev with
  | MessagesList _ => true
  | _ => false
  end.

Definition is_thread_request (ev : Event) : bool :=
  match ev with
  | ThreadsGet _ => true
  | _ => false
  end.

Definition is_label_call (ev : Event) : bool :=
  match ev with
  | AnthropicCreate _ | LabelsList | LabelsCreate _ | MessagesModify _ _ => true
  | _ => false
  end.

(** How the calls of one [process_user_emails] may end: with nothing (the
    batch was empty), with a rollback (the fetch raised), with the clock and
    a commit, or with the clock, a commit that raised and a rollback. *)
Definition step_tail (tail : list Event) : Prop :=
  tail = [] \/ tail = [DbRollback] \/ tail = [UtcNow; DbCommit]
  \/ tail = [UtcNow; DbCommit; DbRollback].

(** A world whose database may be down: the mailbox and the classifier are
    those of [World], queries and commits raise while [db_down] is set. *)
Record Outage := {
  inner : World;
  db_down : bool
}.

Definition lift {A} (f : World -> A * World) (o : Outage) : A * Outage :=
  let (a, w) := f (inner o) in
  (a, {| inner := w; db_down := db_down o |}).

Definition outage_db (o : Outage) : (Exn + unit) * Outage :=
  if db_down o then (inl (Exception "connection refused"), o) else (inr tt, o).

Definition outage_services : Services Outage := {|
  users_messages_list := fun params => lift (world_messages_list params);
  users_threads_get := fun id => lift (world_threads_get id);
  users_labels_list := lift world_labels_list;
  users_labels_create := fun label_object => lift (world_labels_create label_object);
  users_messages_modify :=
    fun message_id modify_body => lift (world_messages_modify message_id modify_body);
  anthropic_messages_create := fun params => lift (world_messages_create params);
  datetime_utcnow := lift world_utcnow;
  db_execute := outage_db;
  db_commit := outage_db;
  db_rollback := fun o => o
|}.

(** The mailbox with one thread, behind a database that is down. *)
Definition outage_world : Outage := {| inner := inbox_world; db_down := true |}.

(** A user whose onboarding is complete. *)
Definition carol : User :=
  {| user_id := "u3"; email := "carol@example.com"; last_pointer := None;
     onboarding_complete := 1; last_sync := Some 42 |}.

Definition configured : OnboardingWorker :=
  {| gmail_token := "ya29.token"; anthropic_api_key := "sk-key" |}.

Definition unconfigured : OnboardingWorker :=
  {| gmail_token := "ya29.token"; anthropic_api_key := "" |}.

(** ** The user table and the scripts that seed and verify it

    A row of the [user] table: the columns the worker uses, held as a
    [User], and the account columns the scripts read and write.  A database
    either answers, or raises on every statement with some message. *)
Record Account := {
  account : User;
  hashed_password : string;
  is_active : bool;
  is_superuser : bool;
  is_verified : bool
}.

Record Database := {
  failure : option string;
  accounts : list Account
}.

(** [session.execute(select(User).where(User.email == address))] *)
Definition select_by_email (address : string) (db : Database)
  : Exn + list Account :=
  match failure db with
  | Some msg => inl (Exception msg)
  | None => inr (List.filter (fun a => String.eqb (email (account a)) address)
                             (accounts db))
  end.

(** [session.execute(select(User).limit(1))], of which only the success is
    used. *)
Definition select_limit_1 (db : Database) : Exn + unit :=
  match failure db with
  | Some msg => inl (Exception msg)
  | None => inr tt
  end.

(** [result.scalar_one_or_none()] *)
Definition scalar_one_or_none (rows : list Account) : Exn + option Account :=
  match rows with
  | [] => inr None
  | [row] => inr (Some row)
  | _ => inl (Exception "Multiple rows were found when one or none was required")
  end.

(** [session.add(user); session.commit(); session.refresh(user)] *)
Definition add_and_commit (user : Account) (db : Database) : Exn + Database :=
  match failure db with
  | Some msg => inl (Exception msg)
  | None => inr {| failure := None; accounts := accounts db ++ [user] |}
  end.

Module SeedDb.

Definition test_user_email : string := "test@example.com".
Definition test_user_password : string := "TestPassword123#".

(** The row [seed_test_user] builds: the columns it names, and the column
    defaults of [models.py] for the others. *)
Definition new_test_user (id hashed : string) : Account :=
  {| account := {| user_id := id; email := test_user_email;
                   last_pointer := None; onboarding_complete := 0;
                   last_sync := None |};
     hashed_password := hashed;
     is_active := true;
     is_superuser := false;
     is_verified := true |}.

(** [seed_test_user]; [id] is what [uuid.uuid4()] returns and [hash] is
    [PasswordHelper().hash].  Exceptions are not caught. *)
Definition seed_test_user (id : string) (hash : string -> string) (db : Database)
  : (Exn + Account) * Database :=
  match select_by_email test_user_email db with
  | inl e => (inl e, db)
  | inr rows =>
      match scalar_one_or_none rows with
      | inl e => (inl e, db)
      | inr (Some existing_user) => (inr existing_user, db)
      | inr None =>
          let user := new_test_user id (hash test_user_password) in
          match add_and_commit user db with
          | inl e => (inl e, db)
          | inr db' => (inr user, db')
          end
      end
  end.

End SeedDb.

Module VerifySetup.

(** The text of an exception, [str(e)]. *)
Definition str (e : Exn) : string :=
  match e with
  | HttpError msg => msg
  | Exception msg => msg
  end.

Definition verify_database_connection (db : Database) : bool * string :=
  match select_limit_1 db with
  | inr _ => (true, "✓ Database connection successful")
  | inl e => (false, "✗ Database connection failed: " +:+ str e)
  end.

Definition verify_test_user (db : Database) : bool * string :=
  match select_by_email "test@example.com" db with
  | inl e => (false, "✗ Test user verification failed: " +:+ str e)
  | inr rows =>
      match scalar_one_or_none rows with
      | inl e => (false, "✗ Test user verification failed: " +:+ str e)
      | inr None => (false, "✗ Test user 'test@example.com' not found")
      | inr (Some user) =>
          if negb (is_active user)
          then (false, "✗ Test user exists but is not active")
          else if negb (is_verified user)
          then (false, "✗ Test user exists but is not verified")
          else (true, "✓ Test user verified (ID: " +:+ user_id (account user) +:+ ")")
      end
  end.

Definition verify_tables (db : Database) : bool * string :=
  match select_limit_1 db with
  | inr _ => (true, "✓ Database tables created successfully")
  | inl e => (false, "✗ Database tables not found: " +:+ str e)
  end.

(** The checks of [main], in order. *)
Definition checks : list (string * (Database -> bool * string)) :=
  [("Database Connection", verify_database_connection);
   ("Database Tables", verify_tables);
   ("Test User", verify_test_user)].

(** [main]: every check is run, the exit status is 0 when all succeeded and
    1 otherwise. *)
Definition main (db : Database) : Z :=
  let results := map (fun check => fst (snd check db)) checks in
  if forallb (fun success => success) results then 0 else 1.

End VerifySetup.

(** A database with one other user, and one that is down. *)
Definition dave : Account :=
  {| account := {| user_id := "u4"; email := "dave@example.com";
                   last_pointer := Some "p7"; onboarding_complete := 0;
                   last_sync := Some 9 |};
     hashed_password := "$argon2$dave"; is_active := true;
     is_superuser := true; is_verified := true |}.

Definition fresh_database : Database := {| failure := None; accounts := [dave] |}.

Definition database_down : Database :=
  {| failure := Some "connection refused"; accounts := [dave] |}.

(** ** The migration that adds the mailbox columns

    A schema maps a table name to its columns, by name.  Adding a column
    that is there, dropping one that is not, or naming a table that does not
    exist raises, as the database does. *)
Module Migration.

Inductive SqlType := SaString | SaInteger | SaDateTime.

(** [sa.Column(name, type, nullable=..., server_default=...)]; a column is
    nullable unless said otherwise. *)
Record Column := {
  sa_type : SqlType;
  nullable : bool;
  server_default : option string
}.

(** [op.add_column(table, sa.Column(name, ...))] *)
Definition add_column (table name : string) (column : Column)
    (schema : gmap string (gmap string Column))
  : Exn + gmap string (gmap string Column) :=
  match schema !! table with
  | None => inl (Exception ("no such table: " +:+ table))
  | Some columns =>
      match columns !! name with
      | Some _ => inl (Exception ("duplicate column name: " +:+ name))
      | None => inr (<[table := <[name := column]> columns]> schema)
      end
  end.

(** [op.drop_column(table, name)] *)
Definition drop_column (table name : string)
    (schema : gmap string (gmap string Column))
  : Exn + gmap string (gmap string Column) :=
  match schema !! table with
  | None => inl (Exception ("no such table: " +:+ table))
  | Some columns =>
      match columns !! name with
      | None => inl (Exception ("no such column: " +:+ name))
      | Some _ => inr (<[table := delete name columns]> schema)
      end
  end.

(** A statement after another; an exception ends the migration. *)
Definition then_ (r : Exn + gmap string (gmap string Column))
    (f : gmap string (gmap string Column) -> Exn + gmap string (gmap string Column))
  : Exn + gmap string (gmap string Column) :=
  match r with
  | inl e => inl e
  | inr schema => f schema
  end.

Definition last_pointer_column : Column :=
  {| sa_type := SaString; nullable := true; server_default := None |}.
Definition onboarding_complete_column : Column :=
  {| sa_type := SaInteger; nullable := true; server_default := Some "0" |}.
Definition last_sync_column : Column :=
  {| sa_type := SaDateTime; nullable := true; server_default := None |}.

(** [upgrade] *)
Definition upgrade (schema : gmap string (gmap string Column))
  : Exn + gmap string (gmap string Column) :=
  then_ (then_ (add_column "user" "last_pointer" last_pointer_column schema)
               (add_column "user" "onboarding_complete" onboarding_complete_column))
        (add_column "user" "last_sync" last_sync_column).

(** [downgrade] *)
Definition downgrade (schema : gmap string (gmap string Column))
  : Exn + gmap string (gmap string Column) :=
  then_ (then_ (drop_column "user" "last_sync" schema)
               (drop_column "user" "onboarding_complete"))
        (drop_column "user" "last_pointer").

(** The columns the migration is about. *)
Definition mailbox_columns : list string :=
  ["last_pointer"; "onboarding_complete"; "last_sync"].

End Migration.

(** A schema with the [user] table before the migration. *)
Definition base_schema : gmap string (gmap string Migration.Column) :=
  {[ "user" := {[ "email" := {| Migration.sa_type := Migration.SaString;
                                Migration.nullable := false;
                                Migration.server_default := None |} ]};
     "items" := ∅ ]}.

(** What [label_email] appends to the main body for the entries of
    [thread_messages]: a line feed and the body, for every body that is not
    empty. *)
Definition replies_text (thread_messages : list Email.t) : string :=
  foldr (fun msg rest =>
           if truthy (Email.body msg) then LF +:+ Email.body msg +:+ rest
           else rest)
        "" thread_messages.

(** A mailbox of two pages: the first names the second. *)
Definition two_page_world : World :=
  {| w_pages :=
       {[ None := {| nextPageToken := Some "p2";
                     messages := Some [ {| MessageRef.id := "m1";
                                           MessageRef.threadId := "t1" |} ] |};
          Some "p2" := {| nextPageToken := None;
                          messages := Some [ {| MessageRef.id := "m1";
                                                MessageRef.threadId := "t1" |} ] |} ]};
     w_threads := {[ "t1" := single_thread ]};
     w_labels := [];
     w_message_labels := {[ "m1" := {[ "INBOX" ]} ]};
     w_answers := [inr ["spam"]];
     w_clock := 100 |}.

(** * Properties *)

Example decode_hello : _decode_body "aGVsbG8=" = "hello".
Proof. reflexivity. Qed.

Example decode_urlsafe : _decode_body "Pz8-Pj4_" = "??>>>?".
Proof. reflexivity. Qed.

Example decode_bad_padding : _decode_body "aGVsbG8" = "".
Proof. reflexivity. Qed.

Example decode_invalid_utf8 : _decode_body "aP9p" = "hi".
Proof. reflexivity. Qed.

Example strip_lower : str_lower (str_strip (" FYI" +:+ LF)) = "fyi".
Proof. reflexivity. Qed.

Example decode_html_hi : _decode_body "PGI-aGk8L2I-" = "<b>hi</b>".
Proof. reflexivity. Qed.

(** A nested part list that yields nothing also clears an HTML fall-back
    remembered from an earlier sibling. *)
Example nested_result_replaces_fallback :
  _find_body_in_parts [html_hi] = "<b>hi</b>"
  /\ _find_body_in_parts [html_hi; multipart "multipart/mixed" []] = "".
Proof. split; reflexivity. Qed.

(** ** Content extraction *)

Section ExtractionFacts.
Context `{PyRuntime}.

(** The loop body, with the recursive call written as
    [_find_body_in_parts]. *)
Lemma find_body_step_unfold (part : Part) (body_text : string) :
  find_body_step part body_text =
    let mime_type := default "" (mimeType part) in
    let nested := _find_body_in_parts <$> parts part in
    let body_text := default body_text nested in
    if default false (truthy <$> nested) then Return body_text
    else
      match body_data part with
      | Some d =>
          if String.eqb mime_type "text/plain" then Return (_decode_body d)
          else if String.eqb mime_type "text/html" then Continue (_decode_body d)
          else Continue body_text
      | None => Continue body_text
      end.
Proof.
  destruct part as [mt fn hs b sub]; cbn [find_body_step].
  assert (Hloop : forall ps bt,
    (fix loop (ps : list Part) (bt : string) {struct ps} : string :=
       match ps with
       | [] => bt
       | p :: ps' =>
           match find_body_step p bt with
           | Return r => r
           | Continue bt' => loop ps' bt'
           end
       end) ps bt = find_body_loop ps bt).
  { induction ps as [|p ps IH]; intros bt; cbn; [reflexivity|].
    destruct (find_body_step p bt); [reflexivity|apply IH]. }
  destruct sub as [ps|]; cbn.
  - rewrite Hloop. reflexivity.
  - reflexivity.
Qed.

(** Among siblings without nested parts, the first plain-text part wins
    over every HTML part, before or after it. *)
Lemma find_body_flat (ps : list Part) (body_text d : string) :
  flat ps = true ->
  first_plain ps = Some d ->
  find_body_loop ps body_text = _decode_body d.
Proof.
  revert body_text.
  induction ps as [|p ps IH]; intros bt Hflat Hfirst; [discriminate|].
  cbn in Hflat. apply andb_true_iff in Hflat as [Hp Hps].
  apply bool_decide_eq_true in Hp.
  cbn [find_body_loop first_plain] in *.
  rewrite find_body_step_unfold, Hp. cbn.
  unfold plain_data in Hfirst.
  destruct (body_data p) as [d'|].
  - destruct (String.eqb (default "" (mimeType p)) "text/plain").
    + congruence.
    + destruct (String.eqb (default "" (mimeType p)) "text/html"); eauto.
  - destruct (String.eqb (default "" (mimeType p)) "text/plain"); eauto.
Qed.

End ExtractionFacts.

(** C1.  The part list [[multipart [html]; plain]] holds one HTML part with
    inline data (nested) and one plain-text part with inline data, and
    [_find_body_in_parts] returns the HTML content, not the plain text: the
    nested call comes back with its HTML fall-back, and every non-empty
    result of a nested call is returned at once. *)
Theorem C1_nested_html_returned_before_plain_sibling :
  flat_map (tree_data plain_data) html_nested_first = ["aGk="] /\
  flat_map (tree_data html_data) html_nested_first = ["PGI-aGk8L2I-"] /\
  _decode_body "aGk=" = "hi" /\
  _find_body_in_parts html_nested_first = "<b>hi</b>" /\
  _find_body_in_parts html_nested_first <> _decode_body "aGk=" /\
  _find_body_in_parts [html_hi; plain_hi] = "hi".
Proof. vm_compute. repeat split; try reflexivity. discriminate. Qed.

(** ** The batch reader *)

Section ReaderFacts.
Context `{PyRuntime}.

Lemma build_thread_messages_length (thread : Thread.t) :
  length (build_thread_messages thread)
  = length (default [] (Thread.messages thread)).
Proof. unfold build_thread_messages. apply length_map. Qed.

(** Every message of an entry carries the flag of the thread: more than
    one message in the thread response. *)
Lemma isThreadMessage_spec (thread : Thread.t) (e : Email.t) :
  e ∈ build_thread_messages thread ->
  Email.isThreadMessage e
  = (1 <? Z.of_nat (length (default [] (Thread.messages thread))))%Z.
Proof.
  unfold build_thread_messages. intros He.
  apply list_elem_of_fmap in He as (msg & -> & _). reflexivity.
Qed.


End ReaderFacts.

(** ** Label requests *)

Section ModifyFacts.
Context {W : Type} `{Services W}.

(** C8.  [modify_message_labels] sends one modify request, for the given
    message; its body has the key [addLabelIds] exactly when the add list
    is given and not empty, and then holds that list, the same for
    [removeLabelIds] and the remove list, and it has no other key: an empty
    list is never in the request. *)
Theorem C8_modify_body_lists (message_id : string)
    (add_label_ids remove_label_ids : option (list string)) (s : St W) :
  let modify_body := build_modify_body add_label_ids remove_label_ids in
  trace (snd (modify_message_labels message_id add_label_ids remove_label_ids s))
  = trace s ++ [MessagesModify message_id modify_body]
  /\ (forall l, modify_body !! "addLabelIds" = Some l
                <-> add_label_ids = Some l /\ l <> [])
  /\ (forall l, modify_body !! "removeLabelIds" = Some l
                <-> remove_label_ids = Some l /\ l <> [])
  /\ (forall k, is_Some (modify_body !! k)
                -> k = "addLabelIds" \/ k = "removeLabelIds").
Proof.
  intros modify_body. split; [|split; [|split]].
  - unfold modify_message_labels, try_except_http, try_except, call.
    fold modify_body.
    destruct (users_messages_modify message_id modify_body (world s))
      as [[[e|e]|[]] w]; reflexivity.
  - intros l. subst modify_body. unfold build_modify_body.
    destruct add_label_ids as [[|a la]|], remove_label_ids as [[|r lr]|];
      cbn; simplify_map_eq; split; intros; destruct_and?; simplify_eq; try done.
  - intros l. subst modify_body. unfold build_modify_body.
    destruct add_label_ids as [[|a la]|], remove_label_ids as [[|r lr]|];
      cbn; simplify_map_eq; split; intros; destruct_and?; simplify_eq; try done.
  - intros k [l Hl]. subst modify_body. unfold build_modify_body in Hl.
    destruct (decide (k = "addLabelIds")) as [|Ha]; [by left|].
    destruct (decide (k = "removeLabelIds")) as [|Hr]; [by right|].
    destruct add_label_ids as [[|a la]|], remove_label_ids as [[|r lr]|];
      cbn in Hl; simplify_map_eq.
Qed.

End ModifyFacts.

(** ** Classification *)

Section ClassifierFacts.
Context `{PyRuntime} {W : Type} `{Services W}.

Lemma label_of_answer_valid (answer : Exn + list string) :
  label_of_answer answer ∈ valid_labels.
Proof.
  assert (Hextra : "extra" ∈ valid_labels) by (unfold valid_labels; set_solver).
  destruct answer as [e|[|text rest]]; cbn; try exact Hextra.
  case_bool_decide; [assumption|exact Hextra].
Qed.

(** The classifier makes one call and returns the label of the answer. *)
Lemma analyze_run (combined_text : string) (s : St W) :
  let answer :=
    anthropic_messages_create (create_params combined_text) (world s) in
  _analyze_with_anthropic combined_text s
  = (inr (label_of_answer (fst answer)),
     {| world := snd answer;
        trace := trace s ++ [AnthropicCreate (create_params combined_text)] |}).
Proof.
  intros answer.
  unfold _analyze_with_anthropic, try_except, call, mbind, M_bind.
  subst answer.
  destruct (anthropic_messages_create (create_params combined_text) (world s))
    as [[e|[|text rest]] w]; cbn; try reflexivity.
  case_bool_decide; reflexivity.
Qed.

(** C6.  Whatever the text and whatever the provider does, the classifier
    returns (it does not raise), with one of the four labels: the trimmed,
    lower-cased first text of the answer when that is one of the four, and
    [extra] when it is not, when the answer has no content, and when the
    provider raises.  It makes exactly one call, to the provider. *)
Theorem C6_classifier_total (combined_text : string) (s : St W) :
  let answer :=
    anthropic_messages_create (create_params combined_text) (world s) in
  _analyze_with_anthropic combined_text s
  = (inr (label_of_answer (fst answer)),
     {| world := snd answer;
        trace := trace s ++ [AnthropicCreate (create_params combined_text)] |})
  /\ label_of_answer (fst answer) ∈ valid_labels
  /\ (forall text rest, fst answer = inr (text :: rest) ->
        str_lower (str_strip text) ∈ valid_labels ->
        label_of_answer (fst answer) = str_lower (str_strip text))
  /\ (forall text rest, fst answer = inr (text :: rest) ->
        str_lower (str_strip text) ∉ valid_labels ->
        label_of_answer (fst answer) = "extra")
  /\ (fst answer = inr [] -> label_of_answer (fst answer) = "extra")
  /\ (forall e, fst answer = inl e -> label_of_answer (fst answer) = "extra").
Proof.
  intros answer. split; [apply analyze_run|].
  split; [apply label_of_answer_valid|].
  repeat split.
  - intros text rest -> Hin. cbn. rewrite bool_decide_eq_true_2; done.
  - intros text rest -> Hout. cbn. rewrite bool_decide_eq_false_2; done.
  - intros ->. reflexivity.
  - intros e ->. reflexivity.
Qed.

End ClassifierFacts.

(** ** Labeling *)

Section LabelingFacts.
Context `{PyRuntime} {W : Type} `{Services W}.

(** A loop over a concatenation runs the first list, then the second. *)
Lemma for_each_app {A B} (l1 l2 : list A) (f : A -> B -> M W B) (acc : B)
    (s : St W) :
  for_each (l1 ++ l2) f acc s
  = match for_each l1 f acc s with
    | (inr acc', s') => for_each l2 f acc' s'
    | (inl e, s') => (inl e, s')
    end.
Proof.
  revert acc s. induction l1 as [|x l1 IH]; intros acc s; cbn; [reflexivity|].
  unfold mbind, M_bind. destruct (f x acc s) as [[e|acc'] s']; [reflexivity|].
  apply IH.
Qed.

(** An entry whose main message is flagged makes no call at all. *)
Lemma label_thread_skips (email : ThreadEntry) (main_email : Email.t) (s : St W) :
  mainEmail email = Some main_email ->
  Email.isThreadMessage main_email = true ->
  label_thread email s = (inr tt, s).
Proof. intros Hm Hf. unfold label_thread. rewrite Hm, Hf. reflexivity. Qed.

(** The main message of an entry built by the reader is flagged exactly
    when the thread response has more than one message. *)
Lemma main_flag_by_construction (thread : Thread.t) (entry : ThreadEntry)
    (main_email : Email.t) :
  build_entry thread = Some entry ->
  mainEmail entry = Some main_email ->
  Email.isThreadMessage main_email
  = (1 <? Z.of_nat (length (default [] (Thread.messages thread))))%Z
  /\ threadMessages entry = build_thread_messages thread
  /\ exists rest, threadMessages entry = main_email :: rest.
Proof.
  unfold build_entry. intros Hb Hm.
  destruct (build_thread_messages thread) as [|m rest] eqn:E; [discriminate|].
  injection Hb as <-. cbn in *. injection Hm as <-.
  split; [|split; [reflexivity|eauto]].
  apply isThreadMessage_spec. rewrite E. left.
Qed.

(** What the classifier is given for an entry built by the reader whose
    main message is not flagged: the thread has that one message, which is
    also the only entry of [threadMessages], so a body that is not empty
    comes twice. *)
Lemma combined_text_of_unflagged (thread : Thread.t) (entry : ThreadEntry)
    (main_email : Email.t) :
  build_entry thread = Some entry ->
  mainEmail entry = Some main_email ->
  Email.isThreadMessage main_email = false ->
  threadMessages entry = [main_email]
  /\ combined_text_of main_email (threadMessages entry)
     = if truthy (Email.body main_email)
       then Email.body main_email +:+ LF +:+ Email.body main_email
       else Email.body main_email.
Proof.
  intros Hb Hm Hf.
  destruct (main_flag_by_construction _ _ _ Hb Hm) as (Hflag & Hall & rest & Hrest).
  assert (rest = []) as ->.
  { rewrite Hf in Hflag. symmetry in Hflag. apply Z.ltb_ge in Hflag.
    rewrite <- build_thread_messages_length, <- Hall, Hrest in Hflag.
    destruct rest; [reflexivity|cbn in Hflag; lia]. }
  split; [exact Hrest|]. rewrite Hrest. reflexivity.
Qed.

(** C5.  An entry whose main message has [isThreadMessage] set, which for an
    entry built by the reader is to say that its thread response has more
    than one message, contributes nothing to the labeling pass: handling it
    makes no call (no classification, no label request) and changes nothing,
    so the pass over a batch is the pass over the batch without that
    entry. *)
Theorem C5_flagged_thread_untouched (before after : list ThreadEntry)
    (email : ThreadEntry) (main_email : Email.t) (next : option string)
    (s : St W) :
  mainEmail email = Some main_email ->
  (Email.isThreadMessage main_email = true
   \/ exists thread, build_entry thread = Some email
        /\ (1 < length (default [] (Thread.messages thread)))%nat) ->
  Email.isThreadMessage main_email = true
  /\ label_thread email s = (inr tt, s)
  /\ label_email {| nextPointer := next; emails := before ++ email :: after |} s
     = label_email {| nextPointer := next; emails := before ++ after |} s
  /\ forall thread, build_entry thread = Some email ->
       (1 < length (default [] (Thread.messages thread)))%nat.
Proof.
  intros Hm Hflagged.
  assert (Hf : Email.isThreadMessage main_email = true).
  { destruct Hflagged as [Hf|(thread & Hb & Hlen)]; [exact Hf|].
    destruct (main_flag_by_construction _ _ _ Hb Hm) as (-> & _).
    apply Z.ltb_lt. lia. }
  split; [exact Hf|]. split; [|split].
  - exact (label_thread_skips _ _ s Hm Hf).
  - unfold label_email, mbind, M_bind; cbn [emails].
    rewrite !for_each_app.
    destruct (for_each before _ tt s) as [[e|[]] s1]; [reflexivity|].
    cbn [for_each]. unfold mbind at 1, M_bind at 1.
    rewrite (label_thread_skips _ _ s1 Hm Hf). reflexivity.
  - intros thread Hb.
    destruct (main_flag_by_construction _ _ _ Hb Hm) as (Hflag & _).
    rewrite Hf in Hflag. symmetry in Hflag. apply Z.ltb_lt in Hflag. lia.
Qed.

End LabelingFacts.

(** ** The onboarding cycle *)

Section WorkerFacts.
Context `{PyRuntime} {W : Type} `{Services W}.

(** A [try] whose handler swallows the exception does not raise. *)
Lemma try_except_swallow {A} (c : M W A) (x : A) (s : St W) :
  exists y s', try_except c (fun _ => mret x) s = (inr y, s').
Proof.
  unfold try_except. destruct (c s) as [[e|y] s']; cbn; eauto.
Qed.

Lemma label_thread_returns (email : ThreadEntry) (s : St W) :
  exists s', label_thread email s = (inr tt, s').
Proof.
  unfold label_thread.
  destruct (mainEmail email) as [main_email|]; [|cbn; eauto].
  destruct (Email.isThreadMessage main_email); [cbn; eauto|].
  unfold mbind, M_bind. rewrite analyze_run.
  match goal with
  | |- context [try_except ?c (fun _ => mret tt) ?s0] =>
      destruct (try_except_swallow c tt s0) as ([] & s1 & ->)
  end.
  match goal with
  | |- context [try_except ?c (fun _ => mret tt) ?s0] =>
      destruct (try_except_swallow c tt s0) as ([] & s2 & ->)
  end.
  eauto.
Qed.

Lemma label_email_returns (out : ReaderOutput) (s : St W) :
  exists s', label_email out s = (inr "Labeling complete", s').
Proof.
  unfold label_email, mbind, M_bind.
  assert (Hloop : forall l s0, exists s1,
    for_each l (fun email (_ : unit) => label_thread email) tt s0 = (inr tt, s1)).
  { induction l as [|email l IH]; intros s0; cbn; [eauto|].
    unfold mbind, M_bind.
    destruct (label_thread_returns email s0) as (s1 & ->). apply IH. }
  destruct (Hloop (emails out) s) as (s1 & ->). cbn. eauto.
Qed.

(** The state in which [process_user_emails] leaves after a commit attempt
    that follows the batch [out], read in state [s1]: labeling, clock,
    commit. *)
Lemma process_user_emails_run (user : User) (s : St W) :
  process_user_emails user s
  = match email_reader (last_pointer user) s with
    | (inl e, s1) => (inr user, rolled_back s1)
    | (inr out, s1) =>
        if truthy_list (emails out) then
          let s2 := snd (label_email out s1) in
          let now := datetime_utcnow (world s2) in
          let s3 := {| world := snd now; trace := trace s2 ++ [UtcNow] |} in
          let commit := db_commit (world s3) in
          let s4 := {| world := snd commit; trace := trace s3 ++ [DbCommit] |} in
          match fst commit with
          | inr _ => (inr (advance user out (fst now)), s4)
          | inl _ => (inr user, rolled_back s4)
          end
        else (inr user, s1)
    end.
Proof.
  unfold process_user_emails, try_except, mbind, M_bind, rolled_back.
  destruct (email_reader (last_pointer user) s) as [[e|out] s1]; [reflexivity|].
  destruct (truthy_list (emails out)); cbn [negb]; [|reflexivity].
  destruct (label_email_returns out s1) as (s2 & ->). cbn [snd].
  unfold call at 1. cbn [world trace].
  destruct (datetime_utcnow (world s2)) as [now w3]. cbn [fst snd].
  unfold call at 1. cbn [world trace].
  destruct (db_commit w3) as [[e|[]] w4]; reflexivity.
Qed.

Lemma process_user_emails_returns (user : User) (s : St W) :
  exists user' s', process_user_emails user s = (inr user', s').
Proof.
  rewrite process_user_emails_run.
  destruct (email_reader (last_pointer user) s) as [[e|out] s1]; [eauto|].
  destruct (truthy_list (emails out)); [|eauto].
  cbv zeta. destruct (fst (db_commit _)); eauto.
Qed.

Lemma pending_spec (user : User) :
  pending user = true <-> onboarding_complete user = 0.
Proof. unfold pending. apply Z.eqb_eq. Qed.

Lemma evolves_refl (user : User) : evolves user user.
Proof. unfold evolves. auto. Qed.

Lemma evolves_trans (u1 u2 u3 : User) :
  evolves u1 u2 -> evolves u2 u3 -> evolves u1 u3.
Proof.
  intros (Hid12 & Hfix12 & Hzero12) (Hid23 & Hfix23 & Hzero23).
  split; [congruence|split].
  - intros Hne. pose proof (Hfix12 Hne) as ->. auto.
  - intros Hz. destruct (Hzero12 Hz) as [Hz0|Hz1]; [auto|].
    right. rewrite Hfix23; [exact Hz1|lia].
Qed.

(** One user's step: the row it leaves. *)
Lemma process_user_emails_evolves (user user' : User) (s s' : St W) :
  pending user = true ->
  process_user_emails user s = (inr user', s') ->
  evolves user user'.
Proof.
  intros Hp%pending_spec. rewrite process_user_emails_run.
  destruct (email_reader (last_pointer user) s) as [[e|out] s1].
  { intros [= <- _]. apply evolves_refl. }
  destruct (truthy_list (emails out)); [|intros [= <- _]; apply evolves_refl].
  cbv zeta. destruct (fst (db_commit _)); intros [= <- _];
    [apply evolves_refl|].
  split; [reflexivity|split; [congruence|]]. intros _. cbn.
  destruct (truthy_opt (nextPointer out)); auto.
Qed.

(** The loop over the table, at one row. *)
Lemma process_users_app (before after : list User) (user : User) (s0 : St W) :
  process_users (before ++ user :: after) s0
  = match process_users before s0 with
    | (inr before', s_u) =>
        match (if pending user then process_user_emails user else mret user) s_u with
        | (inr user', s_v) =>
            match process_users after s_v with
            | (inr after', s') => (inr (before' ++ user' :: after'), s')
            | (inl e, s') => (inl e, s')
            end
        | (inl e, s_v) => (inl e, s_v)
        end
    | (inl e, s_u) => (inl e, s_u)
    end.
Proof.
  revert s0. induction before as [|u before IH]; intros s0;
    cbn [app process_users]; unfold mbind, M_bind, mret, M_ret.
  - destruct (pending user);
      [destruct (process_user_emails user s0) as [[e|user'] s_v]|];
      try reflexivity;
      destruct (process_users after _) as [[e|after'] s']; reflexivity.
  - destruct (pending u);
      [destruct (process_user_emails u s0) as [[e|u'] s1]|];
      try reflexivity;
      rewrite IH; unfold mret, M_ret;
      destruct (process_users before _) as [[e|before'] s_u]; try reflexivity;
      (destruct (pending user);
       [destruct (process_user_emails user s_u) as [[e|user'] s_v]|];
       try reflexivity;
       destruct (process_users after _) as [[e|after'] s']; reflexivity).
Qed.

Lemma process_users_evolves (db : list User) (s : St W) :
  exists db' s', process_users db s = (inr db', s') /\ Forall2 evolves db db'.
Proof.
  revert s. induction db as [|user db IH]; intros s.
  - cbn. eauto using Forall2_nil.
  - cbn [process_users]. unfold mbind, M_bind.
    assert (Hstep : exists user' s1,
      (if pending user then process_user_emails user else mret user) s
      = (inr user', s1) /\ evolves user user').
    { destruct (pending user) eqn:Hp.
      - destruct (process_user_emails_returns user s) as (user' & s1 & Hrun).
        eauto using process_user_emails_evolves.
      - cbn. eauto using evolves_refl. }
    destruct Hstep as (user' & s1 & -> & Hev).
    destruct (IH s1) as (db' & s' & -> & Hall). cbn.
    eauto using Forall2_cons.
Qed.

Lemma run_onboarding_cycle_run (db : list User) (s : St W) :
  run_onboarding_cycle db s
  = match fst (db_execute (world s)) with
    | inr _ => process_users db (queried s)
    | inl _ => (inr db, queried s)
    end.
Proof.
  unfold run_onboarding_cycle, try_except, mbind, M_bind, call, queried.
  destruct (db_execute (world s)) as [[e|[]] w]; cbn [fst snd]; [reflexivity|].
  destruct (process_users_evolves db {| world := w; trace := trace s ++ [DbExecute] |})
    as (db' & s' & -> & _).
  reflexivity.
Qed.

Lemma Forall2_evolves_refl (db : list User) : Forall2 evolves db db.
Proof. induction db; constructor; auto using evolves_refl. Qed.

Lemma Forall2_evolves_trans (db1 db2 db3 : list User) :
  Forall2 evolves db1 db2 -> Forall2 evolves db2 db3 -> Forall2 evolves db1 db3.
Proof.
  intros H12. revert db3.
  induction H12 as [|u1 u2 l1 l2 Hu _ IH]; intros db3 H23; inversion H23; subst;
    constructor; eauto using evolves_trans.
Qed.

Lemma run_onboarding_cycle_evolves (db : list User) (s : St W) :
  exists db' s', run_onboarding_cycle db s = (inr db', s')
                 /\ Forall2 evolves db db'.
Proof.
  rewrite run_onboarding_cycle_run.
  destruct (fst (db_execute (world s))).
  - eauto using Forall2_evolves_refl.
  - apply process_users_evolves.
Qed.

Lemma run_cycles_evolves (cycles : nat) (db : list User) (s : St W) :
  exists db' s', run_cycles cycles db s = (inr db', s')
                 /\ Forall2 evolves db db'.
Proof.
  revert db s. induction cycles as [|n IH]; intros db s.
  - cbn. eauto using Forall2_evolves_refl.
  - cbn [run_cycles]. unfold mbind, M_bind.
    destruct (run_onboarding_cycle_evolves db s) as (db1 & s1 & -> & H1).
    destruct (IH db1 s1) as (db' & s' & -> & H2).
    eauto using Forall2_evolves_trans.
Qed.

(** The cycle, when its query answers and the loop reaches [user] in state
    [s_u]: the row [user] is left with and the rest of the loop. *)
Lemma cycle_at_user (before after before' : list User) (user user' : User)
    (s s_u s_v : St W) :
  fst (db_execute (world s)) = inr tt ->
  process_users before (queried s) = (inr before', s_u) ->
  pending user = true ->
  process_user_emails user s_u = (inr user', s_v) ->
  exists after' s',
    run_onboarding_cycle (before ++ user :: after) s
    = (inr (before' ++ user' :: after'), s')
    /\ process_users after s_v = (inr after', s').
Proof.
  intros Hq Hbefore Hp Hstep.
  rewrite run_onboarding_cycle_run, Hq, process_users_app, Hbefore, Hp, Hstep.
  destruct (process_users_evolves after s_v) as (after' & s' & -> & _).
  eauto.
Qed.

(** C7.  When the cycle reaches a user whose fetch succeeds with no thread,
    whatever the next-page token of the batch, the method returns the row
    as it was (cursor, flag and time stamp included) without any further
    call, the table after the cycle has that same row in its place, and the
    loop goes on with the users after it. *)
Theorem C7_empty_batch_changes_nothing (before after before' : list User)
    (user : User) (out : ReaderOutput) (s s_u s1 : St W) :
  fst (db_execute (world s)) = inr tt ->
  process_users before (queried s) = (inr before', s_u) ->
  pending user = true ->
  email_reader (last_pointer user) s_u = (inr out, s1) ->
  emails out = [] ->
  process_user_emails user s_u = (inr user, s1)
  /\ exists after' s',
       run_onboarding_cycle (before ++ user :: after) s
       = (inr (before' ++ user :: after'), s')
       /\ process_users after s1 = (inr after', s').
Proof.
  intros Hq Hbefore Hp Hread Hempty.
  assert (Hstep : process_user_emails user s_u = (inr user, s1)).
  { rewrite process_user_emails_run, Hread, Hempty. reflexivity. }
  split; [exact Hstep|]. eapply cycle_at_user; eassumption.
Qed.


(** When the flag of a pending user is set by its step. *)
Lemma completes_iff (user user' : User) (s_u s_v : St W) :
  onboarding_complete user = 0 ->
  process_user_emails user s_u = (inr user', s_v) ->
  onboarding_complete user' = 1
  <-> exists out s1,
        email_reader (last_pointer user) s_u = (inr out, s1)
        /\ emails out <> []
        /\ truthy_opt (nextPointer out) = false
        /\ commit_attempt out s1 = inr tt.
Proof.
  intros Hz. rewrite process_user_emails_run. unfold commit_attempt.
  destruct (email_reader (last_pointer user) s_u) as [[e|out] s1].
  { intros [= <- _]. split; [lia|]. intros (? & ? & ? & _). discriminate. }
  destruct (emails out) as [|entry rest] eqn:Hemails; cbn [truthy_list].
  { intros [= <- _]. split; [lia|].
    intros (out' & s1' & [= <- <-] & Hne & _). congruence. }
  cbv zeta.
  destruct (fst (db_commit _)) as [err|[]] eqn:Hcommit.
  { intros [= <- _]. split; [lia|].
    intros (out' & s1' & [= <- <-] & _ & _ & Hc).
    cbn in Hc, Hcommit. congruence. }
  intros [= <- _]. cbn.
  destruct (truthy_opt (nextPointer out)) eqn:Hnext.
  - split; [lia|]. intros (out' & s1' & [= <- <-] & _ & Hn & _). congruence.
  - split; [|reflexivity]. intros _. exists out, s1.
    rewrite Hemails. repeat split; auto.
Qed.

(** C3 (as amended).  Under any number of cycles the loop returns a table
    in which every row has kept its place and identity, a row whose flag
    was set is unchanged, and a row whose flag was [0] has flag [0] or [1]:
    the flag is set at most once and never cleared.  In a cycle that
    reaches a pending user, the flag of that user is set exactly when the
    fetch returns a batch with at least one thread whose next cursor is
    absent (or empty) and the commit that follows succeeds. *)
Theorem C3_completion_flag (cycles : nat) (before after : list User)
    (user : User) (s : St W) :
  (exists db' s' user',
     run_cycles cycles (before ++ user :: after) s = (inr db', s')
     /\ length db' = length (before ++ user :: after)
     /\ db' !! length before = Some user'
     /\ evolves user user')
  /\ (forall before' s_u,
        fst (db_execute (world s)) = inr tt ->
        process_users before (queried s) = (inr before', s_u) ->
        onboarding_complete user = 0 ->
        exists user' after' s',
          run_onboarding_cycle (before ++ user :: after) s
          = (inr (before' ++ user' :: after'), s')
          /\ (onboarding_complete user' = 1
              <-> exists out s1,
                    email_reader (last_pointer user) s_u = (inr out, s1)
                    /\ emails out <> []
                    /\ truthy_opt (nextPointer out) = false
                    /\ commit_attempt out s1 = inr tt)).
Proof.
  split.
  - destruct (run_cycles_evolves cycles (before ++ user :: after) s)
      as (db' & s' & Hrun & Hall).
    assert (Hlook : (before ++ user :: after) !! length before = Some user).
    { rewrite lookup_app_r by lia. by rewrite Nat.sub_diag. }
    destruct (Forall2_lookup_l _ _ _ _ _ Hall Hlook) as (user' & Hlook' & Hev).
    exists db', s', user'. split; [exact Hrun|].
    split; [symmetry; eapply Forall2_length, Hall|].
    split; assumption.
  - intros before' s_u Hq Hbefore Hz.
    destruct (process_user_emails_returns user s_u) as (user' & s_v & Hstep).
    destruct (cycle_at_user before after before' user user' s s_u s_v)
      as (after' & s' & Hcycle & _); auto.
    { by apply pending_spec. }
    exists user', after', s'. split; [exact Hcycle|].
    eapply completes_iff; eassumption.
Qed.

End WorkerFacts.

(** ** Label synchronisation against the mailbox *)

Lemma apply_modify_idempotent (modify_body : gmap string (list string))
    (remote : gset string) :
  apply_modify modify_body (apply_modify modify_body remote)
  = apply_modify modify_body remote.
Proof.
  unfold apply_modify. apply set_eq. intros label.
  rewrite !elem_of_difference, !elem_of_union, !elem_of_difference, !elem_of_union.
  tauto.
Qed.

(** C9.  In the mailbox modelled from the provider contract, calling
    [modify_message_labels] a second time with the same message and the same
    add and remove lists leaves the label sets of the mailbox, that of the
    message among them, as the first call left them, and the second call
    ends as the first did. *)
Theorem C9_label_sync_idempotent (message_id : string)
    (add_label_ids remove_label_ids : option (list string)) (s : St World) :
  let first := modify_message_labels message_id add_label_ids remove_label_ids s in
  let second :=
    modify_message_labels message_id add_label_ids remove_label_ids (snd first) in
  w_message_labels (world (snd second)) = w_message_labels (world (snd first))
  /\ remote_labels (world (snd second)) message_id
     = remote_labels (world (snd first)) message_id
  /\ fst second = fst first.
Proof.
  cbv zeta.
  unfold modify_message_labels, try_except_http, try_except, call, remote_labels.
  cbn. unfold world_messages_modify.
  destruct (w_message_labels (world s) !! message_id) as [remote|] eqn:Hremote;
    cbn.
  - rewrite lookup_insert_eq. cbn.
    rewrite insert_insert_eq, apply_modify_idempotent.
    rewrite lookup_insert_eq. done.
  - rewrite Hremote. cbn. rewrite Hremote. done.
Qed.

(** ** Runs in the sample mailboxes *)

(** C2.  In [inbox_world] the reader returns one entry, for a thread of one
    message with body [hi]; the main message is not flagged, and it is also
    the only entry of [threadMessages].  The labeling pass hands the
    classifier the body twice, joined by a line feed, and not the body
    once. *)
Theorem C2_main_body_sent_twice :
  let s := start_state inbox_world in
  (exists main_email,
     fst (email_reader None s)
     = inr {| nextPointer := None;
              emails := [ {| threadId := "t1"; historyId := "7";
                             mainEmail := Some main_email;
                             threadMessages := [main_email] |} ] |}
     /\ Email.body main_email = "hi"
     /\ Email.isThreadMessage main_email = false)
  /\ trace (snd (process_user_emails alice s))
     = [ MessagesList {| userId := "me"; maxResults := 5; pageToken := None |};
         ThreadsGet "t1";
         AnthropicCreate (create_params ("hi" +:+ LF +:+ "hi"));
         MessagesModify "m1" {[ "removeLabelIds" := GMAIL_SYSTEM_LABELS ]};
         LabelsList;
         LabelsCreate {| lo_name := "FYI"; messageListVisibility := "show";
                         labelListVisibility := "labelShow" |};
         MessagesModify "m1" {[ "addLabelIds" := ["Label_FYI"] ]};
         UtcNow;
         DbCommit ]
  /\ create_params ("hi" +:+ LF +:+ "hi") <> create_params "hi".
Proof.
  cbv zeta. split; [|split].
  - eexists. split; [vm_compute; reflexivity|]. split; reflexivity.
  - vm_compute. reflexivity.
  - vm_compute. discriminate.
Qed.

Example reply_entry_built : build_entry reply_thread = Some reply_entry.
Proof. reflexivity. Qed.


(** C5 on the entry of [reply_thread]. *)
Lemma C5_witness :
  let s := start_state inbox_world in
  mainEmail reply_entry = Some reply_main
  /\ (build_entry reply_thread = Some reply_entry
      /\ (1 < length (default [] (Thread.messages reply_thread)))%nat)
  /\ Email.isThreadMessage reply_main = true
  /\ label_thread reply_entry s = (inr tt, s)
  /\ label_email {| nextPointer := None; emails := [] ++ reply_entry :: [] |} s
     = label_email {| nextPointer := None; emails := [] ++ [] |} s.
Proof.
  cbv zeta.
  assert (Hbuilt : build_entry reply_thread = Some reply_entry
                   /\ (1 < length (default [] (Thread.messages reply_thread)))%nat)
    by (split; [reflexivity|cbn; lia]).
  split; [reflexivity|]. split; [exact Hbuilt|].
  pose proof (C5_flagged_thread_untouched [] [] reply_entry reply_main None
                (start_state inbox_world) eq_refl
                (or_intror (ex_intro _ reply_thread Hbuilt)))
    as (Hflag & Hskip & Hpass & _).
  split; [exact Hflag|]. split; [exact Hskip|exact Hpass].
Defined.

(** C7 on a user of the mailbox that has nothing in it. *)
Lemma C7_witness :
  let s := start_state exhausted_world in
  let out := {| nextPointer := None; emails := [] |} in
  let s1 := snd (email_reader (last_pointer alice) (queried s)) in
  fst (db_execute (world s)) = inr tt
  /\ process_users [] (queried s) = (inr [], queried s)
  /\ pending alice = true
  /\ email_reader (last_pointer alice) (queried s) = (inr out, s1)
  /\ emails out = []
  /\ process_user_emails alice (queried s) = (inr alice, s1).
Proof.
  cbv zeta.
  assert (Hread : email_reader (last_pointer alice)
                    (queried (start_state exhausted_world))
                  = (inr {| nextPointer := None; emails := [] |},
                     snd (email_reader (last_pointer alice)
                            (queried (start_state exhausted_world)))))
    by (vm_compute; reflexivity).
  do 5 (split; [first [reflexivity | exact Hread]|]).
  exact (proj1 (C7_empty_batch_changes_nothing [] [] [] alice _ _ _ _
                  eq_refl eq_refl eq_refl Hread eq_refl)).
Defined.


Example second_user_completes :
  fst (run_onboarding_cycle [bob; alice] (start_state inbox_world))
  = inr [bob;
         {| user_id := "u1"; email := "alice@example.com"; last_pointer := None;
            onboarding_complete := 1; last_sync := Some 100 |}].
Proof. vm_compute. reflexivity. Qed.

(** C3 (as amended) on [alice] and the mailbox with one thread and no next
    page. *)
Lemma C3_witness :
  let s := start_state inbox_world in
  fst (db_execute (world s)) = inr tt
  /\ process_users [] (queried s) = (inr [], queried s)
  /\ onboarding_complete alice = 0
  /\ exists user' after' s',
       run_onboarding_cycle ([] ++ alice :: []) s
       = (inr ([] ++ user' :: after'), s')
       /\ (onboarding_complete user' = 1
           <-> exists out s1,
                 email_reader (last_pointer alice) (queried s) = (inr out, s1)
                 /\ emails out <> []
                 /\ truthy_opt (nextPointer out) = false
                 /\ commit_attempt out s1 = inr tt).
Proof.
  cbv zeta. do 3 (split; [reflexivity|]).
  exact (proj2 (C3_completion_flag 1 [] [] alice (start_state inbox_world))
           [] _ eq_refl eq_refl eq_refl).
Defined.

(** C3 as stated fails: in the mailbox that has nothing in it the fetched
    batch has no next cursor, and the flag of the user is not set, because a
    batch without threads ends the step before anything is stored. *)
Lemma C3_counterexample :
  exists out s1 user',
    email_reader (last_pointer alice) (queried (start_state exhausted_world))
    = (inr out, s1)
    /\ fst (run_onboarding_cycle [alice] (start_state exhausted_world))
       = inr [user']
    /\ onboarding_complete alice = 0
    /\ ~ (onboarding_complete user' = 1 <-> nextPointer out = None).
Proof.
  exists {| nextPointer := None; emails := [] |},
         (snd (email_reader (last_pointer alice)
                 (queried (start_state exhausted_world)))),
         alice.
  split; [vm_compute; reflexivity|].
  split; [vm_compute; reflexivity|].
  split; [reflexivity|].
  cbn. intros [_ Hset]. specialize (Hset eq_refl). discriminate.
Qed.

(** * Further properties *)

(** ** Headers *)

Lemma extract_headers_fold (hs : list Header) (acc : gmap string string)
    (n : string) :
  foldl (fun header_dict header =>
           if bool_decide (name header ∈ header_names)
           then <[name header := value header]> header_dict
           else header_dict) acc hs !! n
  = match (if bool_decide (n ∈ header_names) then last_value n hs else None) with
    | Some v => Some v
    | None => acc !! n
    end.
Proof.
  revert acc. induction hs as [|h hs IH]; intros acc; cbn [foldl last_value].
  - by case_bool_decide.
  - rewrite IH. case_bool_decide as Hn; [|case_bool_decide as Hh].
    + destruct (last_value n hs) as [v|]; [reflexivity|].
      destruct (String.eqb_spec (name h) n) as [->|Hne].
      * rewrite bool_decide_eq_true_2 by exact Hn. by rewrite lookup_insert_eq.
      * case_bool_decide; [by rewrite lookup_insert_ne|reflexivity].
    + destruct (decide (name h = n)) as [Heq|Hne]; [congruence|].
      by rewrite lookup_insert_ne.
    + reflexivity.
Qed.

(** X1.  The dictionary of [_extract_headers] has an entry for a name
    exactly when the name is one of [Date], [From], [To], [Subject]
    (compared as written, case included) and the list has a header of that
    name; the entry is the value of the last such header. *)
Theorem extract_headers_lookup (hs : list Header) (n : string) :
  _extract_headers hs !! n
  = if bool_decide (n ∈ header_names) then last_value n hs else None.
Proof.
  unfold _extract_headers. rewrite extract_headers_fold, lookup_empty.
  destruct (if bool_decide (n ∈ header_names) then last_value n hs else None);
    reflexivity.
Qed.

Example headers_last_wins :
  _extract_headers [ {| name := "Subject"; value := "a" |};
                     {| name := "subject"; value := "b" |};
                     {| name := "X-Mailer"; value := "c" |};
                     {| name := "Subject"; value := "d" |} ]
  = {[ "Subject" := "d" ]}.
Proof. vm_compute. reflexivity. Qed.

(** ** The part tree *)

(** Induction over a part tree: a part without nested list, and a part over
    a nested list whose parts all have the property. *)
Lemma Part_tree_ind (P : Part -> Prop) :
  (forall mt fn hs b, P (mkPart mt fn hs b None)) ->
  (forall mt fn hs b ps, Forall P ps -> P (mkPart mt fn hs b (Some ps))) ->
  forall part, P part.
Proof.
  intros Hleaf Hnode.
  fix IH 1. intros [mt fn hs b [ps|]]; [|apply Hleaf].
  apply Hnode. induction ps as [|p ps IHps]; constructor; [apply IH|exact IHps].
Qed.

Section BodyFacts.
Context `{PyRuntime}.

(** The loop over siblings without nested parts: the first plain-text part
    ends it, otherwise the last HTML part replaces what was remembered. *)
Lemma find_body_loop_flat (ps : list Part) (body_text : string) :
  flat ps = true ->
  find_body_loop ps body_text
  = match first_plain ps with
    | Some d => _decode_body d
    | None =>
        match last_html ps with
        | Some d => _decode_body d
        | None => body_text
        end
    end.
Proof.
  revert body_text. induction ps as [|p ps IH]; intros bt Hflat; [reflexivity|].
  cbn in Hflat. apply andb_true_iff in Hflat as [Hp%bool_decide_eq_true Hps].
  cbn [find_body_loop first_plain last_html].
  rewrite find_body_step_unfold, Hp. cbn.
  unfold plain_data, html_data.
  destruct (body_data p) as [d|].
  - destruct (String.eqb (default "" (mimeType p)) "text/plain") eqn:Hplain;
      [reflexivity|].
    destruct (String.eqb (default "" (mimeType p)) "text/html");
      rewrite IH by exact Hps;
      destruct (first_plain ps); try reflexivity;
      destruct (last_html ps); reflexivity.
  - rewrite IH by exact Hps.
    destruct (String.eqb (default "" (mimeType p)) "text/plain"),
             (String.eqb (default "" (mimeType p)) "text/html");
      destruct (first_plain ps); try reflexivity;
      destruct (last_html ps); reflexivity.
Qed.

(** X2.  On a list of parts none of which has a nested part list,
    [_find_body_in_parts] returns the decoded data of the first plain-text
    part with inline data, wherever the HTML parts are; without such a part
    it returns the decoded data of the last HTML part with inline data, and
    the empty string when there is neither. *)
Theorem find_body_flat_precedence (ps : list Part) :
  flat ps = true ->
  _find_body_in_parts ps
  = match first_plain ps with
    | Some d => _decode_body d
    | None =>
        match last_html ps with
        | Some d => _decode_body d
        | None => ""
        end
    end.
Proof. intros Hflat. unfold _find_body_in_parts. by apply find_body_loop_flat. Qed.

Lemma body_from_cons (p : Part) (ps : list Part) (bt r : string) :
  body_from [p] bt r -> body_from (p :: ps) bt r.
Proof.
  intros [->|[->|(d & Hd & ->)]]; [by left|by right; left|].
  right; right. exists d. split; [|reflexivity].
  cbn [flat_map] in *. rewrite !app_nil_r in Hd. rewrite !elem_of_app. tauto.
Qed.

Lemma body_from_step (p : Part) (ps : list Part) (bt r result : string) :
  body_from [p] bt r -> body_from ps r result -> body_from (p :: ps) bt result.
Proof.
  intros Hp [->|[->|(d & Hd & ->)]].
  - by apply body_from_cons.
  - by right; left.
  - right; right. exists d. split; [|reflexivity].
    cbn [flat_map]. rewrite !elem_of_app. tauto.
Qed.

(** The loop, given the property of each step. *)
Lemma find_body_loop_from_steps (ps : list Part) :
  Forall (fun p => forall bt, body_from [p] bt (step_text (find_body_step p bt))) ps ->
  forall bt, body_from ps bt (find_body_loop ps bt).
Proof.
  induction 1 as [|p ps Hp _ IH]; intros bt; [by left|].
  cbn [find_body_loop]. specialize (Hp bt).
  destruct (find_body_step p bt) as [r|r]; cbn [step_text] in Hp.
  - by apply body_from_cons.
  - eapply body_from_step; [exact Hp|apply IH].
Qed.

Lemma body_from_own (p : Part) (bt d : string) :
  plain_data p = Some d \/ html_data p = Some d ->
  body_from [p] bt (_decode_body d).
Proof.
  intros Hd. right; right. exists d. split; [|reflexivity].
  cbn [flat_map]. rewrite !app_nil_r.
  destruct Hd as [Hd|Hd]; [left|right];
    (destruct p as [mt fn hs b sub]; cbn [tree_data]; rewrite Hd;
     apply elem_of_app; left; by apply list_elem_of_singleton).
Qed.

Lemma body_from_nested mt fn hs b (ps : list Part) (bt r : string) :
  body_from ps "" r -> body_from [mkPart mt fn hs b (Some ps)] bt r.
Proof.
  intros [->|[->|(d & Hd & ->)]]; [by right; left|by right; left|].
  right; right. exists d. split; [|reflexivity].
  cbn [flat_map tree_data]. rewrite !app_nil_r, !elem_of_app. tauto.
Qed.

Lemma find_body_step_from (part : Part) :
  forall bt, body_from [part] bt (step_text (find_body_step part bt)).
Proof.
  induction part as [mt fn hs b|mt fn hs b ps IHps] using Part_tree_ind;
    intros bt; rewrite find_body_step_unfold.
  - cbv zeta. unfold _find_body_in_parts.
    cbn [parts fmap option_fmap option_map default].
    set (p := mkPart mt fn hs b None).
    pose proof (body_from_own p bt) as Hown. unfold plain_data, html_data in Hown.
    destruct (body_data p) as [d|]; [|by left].
    destruct (String.eqb (default "" (mimeType p)) "text/plain");
      [apply Hown; by left|].
    destruct (String.eqb (default "" (mimeType p)) "text/html");
      [apply Hown; by right|by left].
  - pose proof (find_body_loop_from_steps ps IHps "") as Hnested.
    apply (body_from_nested mt fn hs b ps bt) in Hnested.
    cbv zeta. unfold _find_body_in_parts.
    cbn [parts fmap option_fmap option_map default].
    set (p := mkPart mt fn hs b (Some ps)) in *.
    destruct (truthy (find_body_loop ps "")); [exact Hnested|].
    pose proof (body_from_own p bt) as Hown. unfold plain_data, html_data in Hown.
    destruct (body_data p) as [d|]; [|exact Hnested].
    destruct (String.eqb (default "" (mimeType p)) "text/plain");
      [apply Hown; by left|].
    destruct (String.eqb (default "" (mimeType p)) "text/html");
      [apply Hown; by right|exact Hnested].
Qed.

(** X3.  Whatever the nesting, the text [_find_body_in_parts] returns is the
    decoded inline data of a plain-text or of an HTML part of the tree, or
    it is empty: no other part (an attachment, an image, a part without
    inline data) ever supplies the body, and a tree without such a part
    gives the empty string. *)
Theorem find_body_provenance (ps : list Part) :
  (_find_body_in_parts ps = ""
   \/ exists d, (d ∈ flat_map (tree_data plain_data) ps
                 \/ d ∈ flat_map (tree_data html_data) ps)
                /\ _find_body_in_parts ps = _decode_body d)
  /\ (flat_map (tree_data plain_data) ps = [] ->
      flat_map (tree_data html_data) ps = [] ->
      _find_body_in_parts ps = "").
Proof.
  unfold _find_body_in_parts.
  assert (Hfrom : find_body_loop ps "" = ""
     \/ exists d, (d ∈ flat_map (tree_data plain_data) ps
                   \/ d ∈ flat_map (tree_data html_data) ps)
                  /\ find_body_loop ps "" = _decode_body d).
  { assert (Hsteps : Forall (fun p => forall bt,
              body_from [p] bt (step_text (find_body_step p bt))) ps).
    { apply Forall_forall. intros p _. apply find_body_step_from. }
    destruct (find_body_loop_from_steps ps Hsteps "") as [E|[E|E]]; auto. }
  split; [exact Hfrom|].
  intros Hplain Hhtml. destruct Hfrom as [E|(d & Hd & _)]; [exact E|].
  rewrite Hplain, Hhtml in Hd. destruct Hd as [Hd|Hd]; inversion Hd.
Qed.

End BodyFacts.

(** X2 on an HTML part followed by a plain-text sibling. *)
Lemma find_body_flat_precedence_witness :
  flat [html_hi; plain_hi] = true
  /\ _find_body_in_parts [html_hi; plain_hi] = _decode_body "aGk=".
Proof.
  split; [reflexivity|].
  exact (find_body_flat_precedence [html_hi; plain_hi] eq_refl).
Defined.

(** ** Attachments *)

Lemma part_attachments_unfold (part : Part) :
  part_attachments part
  = match parts part with
    | Some ps => _extract_attachments ps
    | None => []
    end ++ (if is_attachment part then [attachment_of part] else []).
Proof.
  destruct part as [mt fn hs [pb|] sub]; cbn [part_attachments parts];
    unfold is_attachment, attachment_of; cbn; [|reflexivity].
  destruct (truthy_opt fn && truthy_opt (attachmentId pb)); reflexivity.
Qed.

Lemma filter_map_flat_map_attachments (ps : list Part) :
  Forall (fun p => part_attachments p
                   ≡ₚ List.map attachment_of
                        (List.filter is_attachment (tree_parts p))) ps ->
  flat_map part_attachments ps
  ≡ₚ List.map attachment_of
       (List.filter is_attachment (flat_map tree_parts ps)).
Proof.
  induction 1 as [|p ps Hp _ IH]; [reflexivity|].
  cbn [flat_map]. rewrite List.filter_app, List.map_app.
  by apply Permutation_app.
Qed.

Lemma part_attachments_perm (part : Part) :
  part_attachments part
  ≡ₚ List.map attachment_of (List.filter is_attachment (tree_parts part)).
Proof.
  induction part as [mt fn hs b|mt fn hs b ps IHps] using Part_tree_ind.
  - rewrite part_attachments_unfold. cbn [parts tree_parts List.filter app].
    destruct (is_attachment _); reflexivity.
  - rewrite part_attachments_unfold. cbn [parts tree_parts List.filter].
    unfold _extract_attachments.
    rewrite (filter_map_flat_map_attachments ps IHps).
    destruct (is_attachment _); cbn [List.map].
    + symmetry. apply Permutation_cons_append.
    + by rewrite app_nil_r.
Qed.

(** X4.  [_extract_attachments] returns one entry for every part of the
    tree, at any depth, that has a non-empty file name and a body with a
    non-empty attachment identifier, and no other entry: none is lost and
    none comes twice; every entry carries that file name and identifier, the
    MIME type of the part (empty when missing) and its declared size (0 when
    missing). *)
Theorem extract_attachments_complete (ps : list Part) :
  _extract_attachments ps
  ≡ₚ List.map attachment_of
       (List.filter is_attachment (flat_map tree_parts ps))
  /\ Forall (fun a => truthy (att_filename a) = true
                      /\ truthy (att_attachmentId a) = true)
            (_extract_attachments ps).
Proof.
  assert (Hperm : _extract_attachments ps
    ≡ₚ List.map attachment_of
         (List.filter is_attachment (flat_map tree_parts ps))).
  { unfold _extract_attachments. apply filter_map_flat_map_attachments.
    apply Forall_forall. intros p _. apply part_attachments_perm. }
  split; [exact Hperm|].
  rewrite Hperm. apply Forall_forall. intros a Ha.
  apply list_elem_of_In, List.in_map_iff in Ha as (p & <- & Hp).
  apply List.filter_In in Hp as [_ Hp].
  unfold is_attachment in Hp. unfold attachment_of.
  destruct (body p) as [pb|]; [|discriminate]. cbn.
  apply andb_true_iff in Hp as [Hfn Hid].
  destruct (filename p), (attachmentId pb); try discriminate. auto.
Qed.

Example mixed_message_attachments :
  _extract_attachments mixed_message
  = [ {| att_filename := "form.pdf"; att_mimeType := "application/pdf";
         att_size := 1024; att_attachmentId := "att-1" |} ]
  /\ _find_body_in_parts mixed_message = "hi".
Proof. split; reflexivity. Qed.

(** ** The batch reader, as a whole *)

Section ReaderRunFacts.
Context `{PyRuntime} {W : Type} `{Services W}.

Lemma build_entry_wf (thread : Thread.t) (e : ThreadEntry) :
  build_entry thread = Some e -> entry_wf e.
Proof.
  unfold build_entry. intros Hb.
  destruct (build_thread_messages thread) as [|m rest] eqn:E; [discriminate|].
  injection Hb as <-. unfold entry_wf. cbn [threadMessages mainEmail].
  split; [discriminate|]. split; [reflexivity|].
  rewrite <- E. apply Forall_forall. intros m' Hm'.
  rewrite (isThreadMessage_spec thread m' Hm').
  rewrite build_thread_messages_length.
  destruct (Z.ltb_spec 1 (Z.of_nat (length (default [] (Thread.messages thread)))));
    [rewrite bool_decide_eq_true_2 by lia|rewrite bool_decide_eq_false_2 by lia];
    reflexivity.
Qed.

(** A [try] around [c] whose handler re-raises an [HttpError] under a
    prefix. *)
Lemma try_except_http_raise {A} (c : M W A) (prefix : string) (s : St W) :
  try_except_http c (fun error => raise (Exception (prefix +:+ error))) s
  = match c s with
    | (inl (HttpError m), s') => (inl (Exception (prefix +:+ m)), s')
    | r => r
    end.
Proof.
  unfold try_except_http, try_except, raise.
  destruct (c s) as [[[m|m]|x] s']; reflexivity.
Qed.

(** The loop over the listed messages: on success every message was asked
    for its thread, in order, and the entries appended are well formed, at
    most one per message; on failure the requests stop with the one that
    raised. *)
Lemma read_threads_run (ms : list MessageRef.t) (acc : list ThreadEntry) (s : St W) :
  match for_each ms read_thread acc s with
  | (inr acc', s') =>
      exists new, acc' = acc ++ new
                  /\ Forall entry_wf new
                  /\ (length new <= length ms)%nat
                  /\ trace s' = trace s ++ thread_requests ms
  | (inl e, s') =>
      exists k, (k < length ms)%nat
                /\ trace s' = trace s ++ thread_requests (take (S k) ms)
  end.
Proof.
  revert acc s. induction ms as [|m ms IH]; intros acc s.
  - cbn. exists []. rewrite !app_nil_r. repeat split; auto.
  - cbn [for_each]. unfold mbind at 1, M_bind at 1.
    unfold read_thread at 1, mbind at 1, M_bind at 1, call at 1.
    destruct (users_threads_get (MessageRef.threadId m) (world s))
      as [[e|thread] w].
    + exists 0%nat. cbn. split; [lia|reflexivity].
    + set (s1 := {| world := w;
                    trace := trace s ++ [ThreadsGet (MessageRef.threadId m)] |}).
      assert (Hstep : exists add,
        (match build_entry thread with
         | Some entry => mret (acc ++ [entry])
         | None => mret acc
         end : M W _) s1 = (inr (acc ++ add), s1)
        /\ Forall entry_wf add /\ (length add <= 1)%nat).
      { destruct (build_entry thread) as [entry|] eqn:Hb.
        - exists [entry]. repeat split; auto.
          constructor; [|constructor]. by eapply build_entry_wf.
        - exists []. rewrite app_nil_r. repeat split; auto. }
      destruct Hstep as (add & -> & Hwf & Hlen).
      specialize (IH (acc ++ add) s1).
      destruct (for_each ms read_thread (acc ++ add) s1) as [[e|acc'] s'].
      * destruct IH as (k & Hk & Htr). exists (S k). split; [cbn; lia|].
        rewrite Htr. cbn [trace s1 take thread_requests map].
        by rewrite <- app_assoc.
      * destruct IH as (new & -> & Hnew & Hlen' & Htr).
        exists (add ++ new). rewrite app_assoc. split; [reflexivity|].
        split; [by apply Forall_app|]. split; [rewrite length_app; cbn; lia|].
        rewrite Htr. cbn [trace s1 thread_requests map].
        by rewrite <- app_assoc.
Qed.

Lemma email_reader_run (last_pointer : option string) (s : St W) :
  email_reader last_pointer s
  = let params := list_params_of last_pointer in
    match users_messages_list params (world s) with
    | (inl (HttpError m), w) =>
        (inl (Exception ("Gmail API error: " +:+ m)),
         logged (MessagesList params) w s)
    | (inl e, w) => (inl e, logged (MessagesList params) w s)
    | (inr response, w) =>
        match for_each (default [] (messages response)) read_thread []
                (logged (MessagesList params) w s) with
        | (inl (HttpError m), s') =>
            (inl (Exception ("Gmail API error: " +:+ m)), s')
        | (inl e, s') => (inl e, s')
        | (inr result_emails, s') =>
            (inr {| nextPointer := nextPageToken response;
                    emails := result_emails |}, s')
        end
    end.
Proof.
  unfold email_reader. rewrite try_except_http_raise.
  fold (list_params_of last_pointer). cbv zeta.
  unfold mbind at 1, M_bind at 1, call at 1, logged.
  destruct (users_messages_list (list_params_of last_pointer) (world s))
    as [[[m|m]|response] w]; try reflexivity.
  unfold mbind, M_bind.
  destruct (for_each _ read_thread [] _) as [[[m|m]|result] s']; reflexivity.
Qed.

(** X5.  A successful [email_reader] has made one list request, for a page
    of 5 with the cursor as page token when the cursor is not empty (an empty
    cursor is sent as no cursor), then one thread request per listed message,
    in order, and nothing else.  Its next pointer is the next-page token of
    the list response; it returns at most one entry per listed message, and
    every entry has messages, has the first of them as its main message, and
    flags all its messages alike: set exactly when the entry has more than
    one message. *)
Theorem email_reader_success (last_pointer : option string) (out : ReaderOutput)
    (s s' : St W) :
  email_reader last_pointer s = (inr out, s') ->
  exists response,
    fst (users_messages_list (list_params_of last_pointer) (world s)) = inr response
    /\ nextPointer out = nextPageToken response
    /\ Forall entry_wf (emails out)
    /\ (length (emails out) <= length (default [] (messages response)))%nat
    /\ trace s'
       = trace s ++ MessagesList (list_params_of last_pointer)
                 :: thread_requests (default [] (messages response)).
Proof.
  rewrite email_reader_run. cbv zeta.
  destruct (users_messages_list (list_params_of last_pointer) (world s))
    as [[[m|m]|response] w]; try discriminate.
  pose proof (read_threads_run (default [] (messages response)) []
                (logged (MessagesList (list_params_of last_pointer)) w s)) as Hloop.
  destruct (for_each _ read_thread [] _) as [[[m|m]|result] s1]; try discriminate.
  intros [= <- <-]. destruct Hloop as (new & -> & Hwf & Hlen & Htr).
  exists response. cbn [fst nextPointer emails app].
  repeat split; auto. rewrite Htr. cbn [logged trace].
  by rewrite <- app_assoc.
Qed.


End ReaderRunFacts.

(** X5 on the mailbox with one thread. *)
Lemma email_reader_success_witness :
  let s := start_state inbox_world in
  exists out s',
    email_reader None s = (inr out, s')
    /\ Forall entry_wf (emails out)
    /\ trace s' = [MessagesList (list_params_of None); ThreadsGet "t1"].
Proof.
  cbv zeta.
  destruct (email_reader None (start_state inbox_world)) as [[e|out] s'] eqn:Hrun;
    [vm_compute in Hrun; discriminate|].
  exists out, s'. split; [reflexivity|].
  destruct (email_reader_success None out _ s' Hrun)
    as (response & Hlist & _ & Hwf & _ & Htr).
  split; [exact Hwf|].
  rewrite Htr. vm_compute in Hlist. injection Hlist as <-. reflexivity.
Defined.

(** ** Label resolution *)

Section LabelResolutionFacts.
Context {W : Type} `{Services W}.

Lemma find_label_first (l1 l2 : list Label.t) (l : Label.t) (n : string) :
  Forall (fun x => Label.name x <> n) l1 ->
  Label.name l = n ->
  find_label (l1 ++ l :: l2) n = Some (Label.id l).
Proof.
  intros Hl1 Hl. induction Hl1 as [|x l1 Hx _ IH]; cbn.
  - rewrite Hl, String.eqb_refl. reflexivity.
  - apply String.eqb_neq in Hx. rewrite Hx. exact IH.
Qed.

Lemma find_label_none (ls : list Label.t) (n : string) :
  Forall (fun x => Label.name x <> n) ls -> find_label ls n = None.
Proof.
  induction 1 as [|x ls Hx _ IH]; cbn; [reflexivity|].
  apply String.eqb_neq in Hx. rewrite Hx. exact IH.
Qed.

Lemma get_or_create_label_id_run (label_name : string) (s : St W) :
  get_or_create_label_id label_name s
  = match users_labels_list (world s) with
    | (inl (HttpError m), w) =>
        (inl (Exception ("Error managing Gmail labels: " +:+ m)),
         logged LabelsList w s)
    | (inl e, w) => (inl e, logged LabelsList w s)
    | (inr results, w) =>
        match find_label (default [] (labels results)) label_name with
        | Some id => (inr id, logged LabelsList w s)
        | None =>
            let s1 := logged LabelsList w s in
            let created := users_labels_create (label_object_of label_name) w in
            let s2 := logged (LabelsCreate (label_object_of label_name))
                             (snd created) s1 in
            match fst created with
            | inl (HttpError m) =>
                (inl (Exception ("Error managing Gmail labels: " +:+ m)), s2)
            | inl e => (inl e, s2)
            | inr created_label => (inr (Label.id created_label), s2)
            end
        end
    end.
Proof.
  unfold get_or_create_label_id. rewrite try_except_http_raise.
  unfold mbind at 1, M_bind at 1, call at 1, logged.
  destruct (users_labels_list (world s)) as [[[m|m]|results] w]; try reflexivity.
  destruct (find_label (default [] (labels results)) label_name) as [id|];
    [reflexivity|].
  fold (label_object_of label_name). cbv zeta.
  unfold mbind, M_bind, call. cbn [world trace].
  destruct (users_labels_create (label_object_of label_name) w)
    as [[[m|m]|created] w']; reflexivity.
Qed.

(** X7.  When the label listing holds a label of the wanted name,
    [get_or_create_label_id] returns the identifier of the first such label
    (names compared exactly) and makes no other call than the listing: it
    creates nothing. *)
Theorem get_or_create_existing (label_name : string) (results : LabelsResponse)
    (l1 l2 : list Label.t) (l : Label.t) (w : W) (s : St W) :
  users_labels_list (world s) = (inr results, w) ->
  default [] (labels results) = l1 ++ l :: l2 ->
  Forall (fun x => Label.name x <> label_name) l1 ->
  Label.name l = label_name ->
  get_or_create_label_id label_name s = (inr (Label.id l), logged LabelsList w s).
Proof.
  intros Hlist Hsplit Hl1 Hl.
  rewrite get_or_create_label_id_run, Hlist, Hsplit.
  by rewrite (find_label_first l1 l2 l label_name Hl1 Hl).
Qed.

(** X8.  When the listing holds no label of the wanted name,
    [get_or_create_label_id] makes exactly one creation request, for that
    name with both visibilities set to show, and returns the identifier of
    the label the mailbox created; if the creation raises, so does the
    method, an [HttpError] under the method's prefix. *)
Theorem get_or_create_absent (label_name : string) (results : LabelsResponse)
    (w : W) (s : St W) :
  users_labels_list (world s) = (inr results, w) ->
  Forall (fun x => Label.name x <> label_name) (default [] (labels results)) ->
  let created := users_labels_create (label_object_of label_name) w in
  snd (get_or_create_label_id label_name s)
  = logged (LabelsCreate (label_object_of label_name)) (snd created)
           (logged LabelsList w s)
  /\ fst (get_or_create_label_id label_name s)
     = match fst created with
       | inr created_label => inr (Label.id created_label)
       | inl (HttpError m) =>
           inl (Exception ("Error managing Gmail labels: " +:+ m))
       | inl e => inl e
       end.
Proof.
  intros Hlist Hnone created.
  rewrite get_or_create_label_id_run, Hlist, (find_label_none _ _ Hnone).
  cbv zeta. fold created.
  destruct (fst created) as [[m|m]|created_label]; split; reflexivity.
Qed.

End LabelResolutionFacts.

(** X7 in a mailbox with two labels named [FYI]: the first one is taken. *)
Lemma get_or_create_existing_witness :
  let s := start_state labelled_world in
  users_labels_list (world s)
  = (inr {| labels := Some (w_labels labelled_world) |}, labelled_world)
  /\ get_or_create_label_id "FYI" s
     = (inr "Label_9", logged LabelsList labelled_world s).
Proof.
  cbv zeta. split; [reflexivity|].
  refine (get_or_create_existing "FYI" {| labels := Some (w_labels labelled_world) |}
            [ {| Label.id := "Label_7"; Label.name := "EXTRA" |} ]
            [ {| Label.id := "Label_12"; Label.name := "FYI" |} ]
            {| Label.id := "Label_9"; Label.name := "FYI" |}
            labelled_world (start_state labelled_world)
            eq_refl eq_refl _ eq_refl).
  constructor; [discriminate|constructor].
Defined.

(** X8 in a mailbox without labels. *)
Lemma get_or_create_absent_witness :
  let s := start_state inbox_world in
  users_labels_list (world s) = (inr {| labels := Some [] |}, inbox_world)
  /\ Forall (fun x => Label.name x <> "SPAM") (@nil Label.t)
  /\ fst (get_or_create_label_id "SPAM" s) = inr "Label_SPAM"
  /\ trace (snd (get_or_create_label_id "SPAM" s))
     = [LabelsList; LabelsCreate (label_object_of "SPAM")].
Proof.
  cbv zeta.
  assert (Hlist : users_labels_list (world (start_state inbox_world))
                  = (inr {| labels := Some [] |}, inbox_world)) by reflexivity.
  split; [exact Hlist|]. split; [constructor|].
  destruct (get_or_create_absent "SPAM" {| labels := Some [] |} inbox_world
              (start_state inbox_world) Hlist
              (List.Forall_nil (fun x => Label.name x <> "SPAM"))) as [Hs Hr].
  split; [exact Hr|]. rewrite Hs. reflexivity.
Defined.

(** ** The labeling pass, call by call *)

Section LabelingRunFacts.
Context `{PyRuntime} {W : Type} `{Services W}.

Lemma modify_message_labels_run (message_id : string)
    (add_label_ids remove_label_ids : option (list string)) (s : St W) :
  modify_message_labels message_id add_label_ids remove_label_ids s
  = let modify_body := build_modify_body add_label_ids remove_label_ids in
    let r := users_messages_modify message_id modify_body (world s) in
    (match fst r with
     | inl (HttpError m) =>
         inl (Exception ("Error modifying message labels: " +:+ m))
     | other => other
     end,
     logged (MessagesModify message_id modify_body) (snd r) s).
Proof.
  unfold modify_message_labels. rewrite try_except_http_raise.
  cbv zeta. unfold call, logged.
  destruct (users_messages_modify _ _ (world s)) as [[[m|m]|[]] w]; reflexivity.
Qed.

(** A [try] whose handler returns [x]: the state is that of the body. *)
Lemma try_except_swallow_run {A} (c : M W A) (x : A) (s : St W) :
  exists y, try_except c (fun _ => mret x) s = (inr y, snd (c s)).
Proof. unfold try_except. destruct (c s) as [[e|y] s']; cbn; eauto. Qed.

Lemma label_name_of_valid (label : string) :
  label ∈ valid_labels -> label_name_of label ∈ label_names.
Proof.
  unfold valid_labels, label_names, label_name_of. intros Hl.
  repeat (apply elem_of_cons in Hl as [->|Hl]);
    [| | | |inversion Hl]; vm_compute; set_solver.
Qed.

(** Resolving a label and adding it: the listing, then at most a creation
    and the request that adds the label. *)
Lemma resolve_and_add_trace (message_id label_name : string) (s : St W) :
  exists tail,
    trace (snd ((label_id ← get_or_create_label_id label_name;
                 modify_message_labels message_id (Some [label_id]) None) s))
    = trace s ++ LabelsList :: tail
    /\ resolve_tail message_id label_name tail.
Proof.
  unfold mbind, M_bind. rewrite get_or_create_label_id_run.
  destruct (users_labels_list (world s)) as [[[m|m]|results] w];
    [exists []; split; [reflexivity|by left]..|].
  destruct (find_label (default [] (labels results)) label_name) as [label_id|].
  - rewrite modify_message_labels_run. cbv zeta. cbn [snd logged trace].
    exists [add_request message_id label_id]. rewrite <- app_assoc.
    split; [reflexivity|]. right; right; left. by eexists.
  - cbv zeta.
    destruct (fst (users_labels_create (label_object_of label_name) w))
      as [[m|m]|created];
      [exists [LabelsCreate (label_object_of label_name)]; cbn [snd logged trace];
       rewrite <- app_assoc; split; [reflexivity|right; by left]..|].
    rewrite modify_message_labels_run. cbv zeta. cbn [snd logged trace].
    exists [LabelsCreate (label_object_of label_name);
            add_request message_id (Label.id created)].
    rewrite <- !app_assoc. split; [reflexivity|].
    right; right; right. by eexists.
Qed.

(** The calls made for an entry whose main message is not flagged. *)
Lemma label_thread_unflagged_run (email : ThreadEntry) (main_email : Email.t)
    (s : St W) :
  mainEmail email = Some main_email ->
  Email.isThreadMessage main_email = false ->
  let combined_text := combined_text_of main_email (threadMessages email) in
  let label :=
    label_of_answer (fst (anthropic_messages_create (create_params combined_text)
                            (world s))) in
  exists tail s',
    label_thread email s = (inr tt, s')
    /\ label_name_of label ∈ label_names
    /\ resolve_tail (Email.id main_email) (label_name_of label) tail
    /\ trace s'
       = trace s ++ [AnthropicCreate (create_params combined_text);
                     removal_request (Email.id main_email);
                     LabelsList] ++ tail.
Proof.
  intros Hm Hf combined_text label.
  assert (Hname : label_name_of label ∈ label_names)
    by apply label_name_of_valid, label_of_answer_valid.
  unfold label_thread. rewrite Hm, Hf. fold combined_text.
  unfold mbind at 1, M_bind at 1. rewrite analyze_run. cbv zeta. fold label.
  set (s1 := {| world := _; trace := _ |}).
  unfold mbind at 1, M_bind at 1.
  destruct (try_except_swallow_run
              (modify_message_labels (Email.id main_email) None
                 (Some GMAIL_SYSTEM_LABELS)) tt s1) as ([] & ->).
  rewrite modify_message_labels_run. cbv zeta. cbn [snd].
  set (s2 := logged _ _ s1). fold (label_name_of label).
  destruct (try_except_swallow_run
              (label_id ← get_or_create_label_id (label_name_of label);
               modify_message_labels (Email.id main_email) (Some [label_id]) None)
              tt s2) as ([] & ->).
  destruct (resolve_and_add_trace (Email.id main_email) (label_name_of label) s2)
    as (tail & Htr & Htail).
  exists tail. eexists. split; [reflexivity|]. split; [exact Hname|].
  split; [exact Htail|]. rewrite Htr. subst s2 s1. cbn [logged trace].
  rewrite <- !app_assoc. reflexivity.
Qed.

(** X9.  For an entry whose main message is not flagged, [label_email]
    classifies the combined text once, then asks to remove the system labels
    from the main message, then lists the labels, in this order and whatever
    the removal answered: a failed removal does not keep the label from
    being resolved.  What follows is at most a creation of the label, one of
    the four names, and one request that adds one label to the same message;
    no other message is touched, and nothing is raised. *)
Theorem label_thread_unflagged (email : ThreadEntry) (main_email : Email.t)
    (s : St W) :
  mainEmail email = Some main_email ->
  Email.isThreadMessage main_email = false ->
  let combined_text := combined_text_of main_email (threadMessages email) in
  let label :=
    label_of_answer (fst (anthropic_messages_create (create_params combined_text)
                            (world s))) in
  exists tail s',
    label_thread email s = (inr tt, s')
    /\ label_name_of label ∈ label_names
    /\ resolve_tail (Email.id main_email) (label_name_of label) tail
    /\ trace s'
       = trace s ++ [AnthropicCreate (create_params combined_text);
                     removal_request (Email.id main_email);
                     LabelsList] ++ tail.
Proof. exact (label_thread_unflagged_run email main_email s). Qed.

Lemma label_event_ok_weaken (email : ThreadEntry) (batch : list ThreadEntry)
    (ev : Event) :
  email ∈ batch -> label_event_ok [email] ev -> label_event_ok batch ev.
Proof.
  intros Hin. destruct ev; cbn; auto.
  - intros [(e & m & He & Hrest) Hbody]. split; [|exact Hbody].
    apply list_elem_of_singleton in He as ->. eauto.
  - intros (e & m & He & Hrest).
    apply list_elem_of_singleton in He as ->. eauto.
Qed.

(** The calls made for one entry of the batch. *)
Lemma label_thread_events (email : ThreadEntry) (s : St W) :
  exists evs s',
    label_thread email s = (inr tt, s')
    /\ trace s' = trace s ++ evs
    /\ Forall (label_event_ok [email]) evs
    /\ length (List.filter is_classification evs)
       = (if unflagged email then 1 else 0)%nat.
Proof.
  destruct (mainEmail email) as [main_email|] eqn:Hm.
  2: { exists [], s. unfold label_thread, unflagged. rewrite Hm, app_nil_r.
       repeat split; auto. }
  destruct (Email.isThreadMessage main_email) eqn:Hf.
  { exists [], s. unfold label_thread, unflagged. rewrite Hm, Hf, app_nil_r.
    repeat split; auto. }
  destruct (label_thread_unflagged_run email main_email s Hm Hf)
    as (tail & s' & Hrun & Hname & Htail & Htr).
  eexists _, s'. split; [exact Hrun|]. split; [exact Htr|].
  assert (Hmain : exists e m, e ∈ [email] /\ mainEmail e = Some m
                              /\ Email.isThreadMessage m = false
                              /\ Email.id m = Email.id main_email).
  { exists email, main_email. repeat split; auto. by apply list_elem_of_singleton. }
  assert (Hadd : forall label_id,
            label_event_ok [email] (add_request (Email.id main_email) label_id)).
  { intros label_id. split; [exact Hmain|]. right. by eexists. }
  assert (Hcreate : label_event_ok [email]
                      (LabelsCreate (label_object_of
                         (label_name_of (label_of_answer
                            (fst (anthropic_messages_create
                                    (create_params (combined_text_of main_email
                                                      (threadMessages email)))
                                    (world s)))))))).
  { cbn. eexists. split; [exact Hname|reflexivity]. }
  assert (Hhead : Forall (label_event_ok [email])
            [AnthropicCreate (create_params (combined_text_of main_email
                                               (threadMessages email)));
             removal_request (Email.id main_email); LabelsList]).
  { apply Forall_cons. split.
    { exists email, main_email. repeat split; auto.
      by apply list_elem_of_singleton. }
    apply Forall_cons. split; [split; [exact Hmain|by left]|].
    apply Forall_cons. split; [exact I|constructor]. }
  unfold unflagged. rewrite Hm, Hf. cbn [negb].
  destruct Htail as [->|[->|[(label_id & ->)|(label_id & ->)]]].
  - split; [by rewrite app_nil_r|reflexivity].
  - split; [|reflexivity]. apply Forall_app. split; [exact Hhead|].
    apply Forall_cons. split; [exact Hcreate|constructor].
  - split; [|reflexivity]. apply Forall_app. split; [exact Hhead|].
    apply Forall_cons. split; [apply Hadd|constructor].
  - split; [|reflexivity]. apply Forall_app. split; [exact Hhead|].
    apply Forall_cons. split; [exact Hcreate|].
    apply Forall_cons. split; [apply Hadd|constructor].
Qed.

Lemma label_loop_events (batch : list ThreadEntry) (s : St W) :
  exists evs s',
    for_each batch (fun email (_ : unit) => label_thread email) tt s = (inr tt, s')
    /\ trace s' = trace s ++ evs
    /\ Forall (label_event_ok batch) evs
    /\ length (List.filter is_classification evs)
       = length (List.filter unflagged batch).
Proof.
  revert s. induction batch as [|email batch IH]; intros s.
  - exists [], s. cbn. rewrite app_nil_r. repeat split; auto.
  - cbn [for_each]. unfold mbind, M_bind.
    destruct (label_thread_events email s) as (evs1 & s1 & -> & Htr1 & Hok1 & Hn1).
    destruct (IH s1) as (evs2 & s2 & -> & Htr2 & Hok2 & Hn2).
    exists (evs1 ++ evs2), s2. split; [reflexivity|].
    split; [by rewrite Htr2, Htr1, <- app_assoc|]. split.
    + apply Forall_app. split.
      * eapply Forall_impl; [exact Hok1|]. intros ev.
        apply label_event_ok_weaken. left.
      * eapply Forall_impl; [exact Hok2|]. intros ev Hev.
        destruct ev; cbn in *; auto.
        -- destruct Hev as [(e & m & He & Hrest) Hbody]. split; [|exact Hbody].
           exists e, m. split; [by right|exact Hrest].
        -- destruct Hev as (e & m & He & Hrest).
           exists e, m. split; [by right|exact Hrest].
    + rewrite List.filter_app, length_app, Hn1, Hn2. cbn [List.filter].
      destruct (unflagged email); reflexivity.
Qed.

(** The calls of the whole pass. *)
Lemma label_email_events (email_reader_output : ReaderOutput) (s : St W) :
  exists evs s',
    label_email email_reader_output s = (inr "Labeling complete", s')
    /\ trace s' = trace s ++ evs
    /\ Forall (label_event_ok (emails email_reader_output)) evs
    /\ length (List.filter is_classification evs)
       = length (List.filter unflagged (emails email_reader_output)).
Proof.
  destruct (label_loop_events (emails email_reader_output) s)
    as (evs & s' & Hrun & Htr & Hok & Hn).
  exists evs, s'. unfold label_email, mbind, M_bind. rewrite Hrun.
  repeat split; auto.
Qed.


End LabelingRunFacts.

(** X9 on the entry of the mailbox with one thread. *)
Lemma label_thread_unflagged_witness :
  let main_email := build_message false (simple_message "m1" "t1" "aGk=") in
  let email := {| threadId := "t1"; historyId := "7";
                  mainEmail := Some main_email;
                  threadMessages := [main_email] |} in
  mainEmail email = Some main_email
  /\ Email.isThreadMessage main_email = false
  /\ exists tail s',
       label_thread email (start_state inbox_world) = (inr tt, s')
       /\ resolve_tail "m1" "FYI" tail
       /\ trace s'
          = [AnthropicCreate (create_params ("hi" +:+ LF +:+ "hi"));
             removal_request "m1"; LabelsList] ++ tail.
Proof.
  cbv zeta. split; [reflexivity|]. split; [reflexivity|].
  destruct (label_thread_unflagged
              {| threadId := "t1"; historyId := "7";
                 mainEmail := Some (build_message false
                                      (simple_message "m1" "t1" "aGk="));
                 threadMessages := [build_message false
                                      (simple_message "m1" "t1" "aGk=")] |}
              (build_message false (simple_message "m1" "t1" "aGk="))
              (start_state inbox_world) eq_refl eq_refl)
    as (tail & s' & Hrun & _ & Htail & Htr).
  exists tail, s'. split; [exact Hrun|]. split; [exact Htail|exact Htr].
Defined.

(** ** One user's step, call by call *)

Section StepFacts.
Context `{PyRuntime} {W : Type} `{Services W}.

(** The calls of [email_reader], whether it returns or raises: the list
    request, then thread requests only. *)
Lemma email_reader_trace (last_pointer : option string) (s : St W) :
  exists evs,
    trace (snd (email_reader last_pointer s))
    = trace s ++ MessagesList (list_params_of last_pointer) :: evs
    /\ Forall (fun ev => is_thread_request ev = true) evs.
Proof.
  rewrite email_reader_run. cbv zeta.
  destruct (users_messages_list (list_params_of last_pointer) (world s))
    as [[[m|m]|response] w]; try (exists []; split; [reflexivity|constructor]).
  pose proof (read_threads_run (default [] (messages response)) []
                (logged (MessagesList (list_params_of last_pointer)) w s)) as Hloop.
  assert (Hreq : forall ms, Forall (fun ev => is_thread_request ev = true)
                              (thread_requests ms)).
  { intros ms. unfold thread_requests. apply Forall_forall. intros ev Hev.
    apply list_elem_of_In, List.in_map_iff in Hev as (m & <- & _). reflexivity. }
  destruct (for_each _ read_thread [] _) as [[[m|m]|result] s1]; cbn [snd].
  1,2: destruct Hloop as (k & _ & ->); cbn [logged trace];
       rewrite <- app_assoc; eexists; split; [reflexivity|apply Hreq].
  destruct Hloop as (new & _ & _ & _ & ->). cbn [logged trace].
  rewrite <- app_assoc. eexists; split; [reflexivity|apply Hreq].
Qed.

Lemma label_event_ok_is_label_call (batch : list ThreadEntry) (ev : Event) :
  label_event_ok batch ev -> is_label_call ev = true.
Proof. destruct ev; cbn; auto; intros []. Qed.

(** The calls of one step, in their order. *)
Lemma process_user_emails_trace (user : User) (s : St W) :
  exists threads labeling tail,
    trace (snd (process_user_emails user s))
    = trace s ++ MessagesList (list_params_of (last_pointer user))
              :: threads ++ labeling ++ tail
    /\ Forall (fun ev => is_thread_request ev = true) threads
    /\ Forall (fun ev => is_label_call ev = true) labeling
    /\ step_tail tail.
Proof.
  rewrite process_user_emails_run.
  destruct (email_reader_trace (last_pointer user) s) as (threads & Htr & Hthreads).
  destruct (email_reader (last_pointer user) s) as [[e|out] s1]; cbn [snd] in *.
  { exists threads, [], [DbRollback]. unfold rolled_back. cbn [snd trace app].
    rewrite Htr, <- app_assoc. repeat split; auto. right; by left. }
  destruct (truthy_list (emails out)).
  2: { exists threads, [], []. cbn [snd]. rewrite Htr, !app_nil_r.
       repeat split; auto. by left. }
  cbv zeta.
  destruct (label_email_events out s1) as (labeling & s2 & Hrun & Htr2 & Hok & _).
  assert (Hlabeling : Forall (fun ev => is_label_call ev = true) labeling).
  { eapply Forall_impl; [exact Hok|]. intros ev. apply label_event_ok_is_label_call. }
  rewrite Hrun. cbn [snd].
  destruct (fst (db_commit _)); unfold rolled_back; cbn [snd trace].
  - exists threads, labeling, [UtcNow; DbCommit; DbRollback].
    rewrite Htr2, Htr. split; [by simplify_list_eq|].
    repeat split; auto. right; right; by right.
  - exists threads, labeling, [UtcNow; DbCommit].
    rewrite Htr2, Htr. split; [by simplify_list_eq|].
    repeat split; auto. right; right; by left.
Qed.

End StepFacts.

(** ** The worker, call by call *)

Section WorkerRunFacts.
Context `{PyRuntime} {W : Type} `{Services W}.


(** X12.  The calls of one [process_user_emails] come in this order: one
    list request carrying the stored cursor, then thread requests only, then
    classifier and label calls only, then at most the clock, one commit and
    one rollback.  So the mailbox is read before anything is classified or
    labeled, the commit comes after every label call, and a rollback is the
    last call when there is one. *)
Theorem process_user_emails_call_order (user : User) (s : St W) :
  exists threads labeling tail,
    trace (snd (process_user_emails user s))
    = trace s ++ MessagesList (list_params_of (last_pointer user))
              :: threads ++ labeling ++ tail
    /\ Forall (fun ev => is_thread_request ev = true) threads
    /\ Forall (fun ev => is_label_call ev = true) labeling
    /\ step_tail tail.
Proof. exact (process_user_emails_trace user s). Qed.


Lemma process_users_none_pending (db : list User) (s : St W) :
  Forall (fun user => pending user = false) db ->
  process_users db s = (inr db, s).
Proof.
  induction 1 as [|user db Hu _ IH]; [reflexivity|].
  cbn [process_users]. rewrite Hu. unfold mbind, M_bind. cbn. by rewrite IH.
Qed.

(** X14.  A cycle makes no call but its query, and leaves the table as it
    is, when no user is pending or when the query raises: users whose
    onboarding is complete are never fetched again. *)
Theorem cycle_without_work (db : list User) (s : St W) :
  Forall (fun user => pending user = false) db
  \/ (exists e, fst (db_execute (world s)) = inl e) ->
  run_onboarding_cycle db s = (inr db, queried s).
Proof.
  intros Hidle. rewrite run_onboarding_cycle_run.
  destruct (fst (db_execute (world s))) as [e|[]] eqn:Hq; [reflexivity|].
  destruct Hidle as [Hnone|(e & He)]; [|discriminate].
  by apply process_users_none_pending.
Qed.




Lemma run_cycles_add (m n : nat) (db : list User) (s : St W) :
  run_cycles (m + n) db s
  = match run_cycles m db s with
    | (inr db1, s1) => run_cycles n db1 s1
    | (inl e, s1) => (inl e, s1)
    end.
Proof.
  revert db s. induction m as [|m IH]; intros db s; [reflexivity|].
  cbn [Nat.add run_cycles]. unfold mbind, M_bind.
  destruct (run_onboarding_cycle db s) as [[e|db1] s1]; [reflexivity|apply IH].
Qed.

Lemma run_cycles_idle (cycles : nat) (db : list User) (s : St W) :
  Forall (fun user => pending user = false) db ->
  exists s', run_cycles cycles db s = (inr db, s')
             /\ trace s' = trace s ++ replicate cycles DbExecute.
Proof.
  intros Hidle. revert s. induction cycles as [|n IH]; intros s.
  - exists s. cbn. by rewrite app_nil_r.
  - cbn [run_cycles replicate]. unfold mbind, M_bind.
    rewrite run_onboarding_cycle_run.
    destruct (fst (db_execute (world s)));
      [|rewrite (process_users_none_pending db _ Hidle)];
      (destruct (IH (queried s)) as (s' & -> & Htr); exists s';
       split; [reflexivity|]; rewrite Htr; unfold queried; cbn [trace];
       by rewrite <- app_assoc).
Qed.

(** X16.  [start] does nothing at all, no query and no call, when the Gmail
    token or the API key is empty.  With both set it runs its cycles one
    after the other: running [m + n] cycles is running [m] and then [n] from
    where they ended, no cycle raises, and once every user is complete each
    further cycle only makes its query. *)
Theorem start_cycles (worker : OnboardingWorker) (m n : nat) (db : list User)
    (s : St W) :
  (truthy (gmail_token worker) = false \/ truthy (anthropic_api_key worker) = false ->
   start worker n db s = (inr db, s))
  /\ (truthy (gmail_token worker) = true ->
      truthy (anthropic_api_key worker) = true ->
      (exists db1 s1,
         start worker m db s = (inr db1, s1)
         /\ start worker (m + n) db s = start worker n db1 s1)
      /\ (Forall (fun user => pending user = false) db ->
          exists s', start worker n db s = (inr db, s')
                     /\ trace s' = trace s ++ replicate n DbExecute)).
Proof.
  unfold start. split.
  - intros [-> | ->]; cbn; [reflexivity|].
    by destruct (truthy (gmail_token worker)).
  - intros -> ->. cbn. split.
    + destruct (run_cycles_evolves m db s) as (db1 & s1 & Hrun & _).
      exists db1, s1. split; [exact Hrun|]. by rewrite run_cycles_add, Hrun.
    + apply run_cycles_idle.
Qed.

End WorkerRunFacts.

(** X14 on a table whose only user is complete. *)
Lemma cycle_without_work_witness :
  let s := start_state inbox_world in
  Forall (fun user => pending user = false) [carol]
  /\ run_onboarding_cycle [carol] s = (inr [carol], queried s).
Proof.
  cbv zeta.
  assert (Hidle : Forall (fun user => pending user = false) [carol])
    by (constructor; [reflexivity|constructor]).
  split; [exact Hidle|].
  exact (cycle_without_work [carol] (start_state inbox_world) (or_introl Hidle)).
Defined.


Example start_unconfigured :
  start unconfigured 3 [alice] (start_state inbox_world)
  = (inr [alice], start_state inbox_world).
Proof. reflexivity. Qed.

Example start_configured :
  fst (start configured 3 [alice; carol] (start_state inbox_world))
  = inr [ {| user_id := "u1"; email := "alice@example.com"; last_pointer := None;
             onboarding_complete := 1; last_sync := Some 100 |}; carol ]
  /\ length (List.filter is_list_request
               (trace (snd (start configured 3 [alice; carol]
                              (start_state inbox_world))))) = 1%nat.
Proof. split; vm_compute; reflexivity. Qed.

Section OutageRuns.
#[local] Existing Instance outage_services.


Example query_failure_stops_cycle :
  run_onboarding_cycle [alice] {| world := outage_world; trace := [] |}
  = (inr [alice], {| world := outage_world; trace := [DbExecute] |}).
Proof. reflexivity. Qed.

End OutageRuns.

(** ** Seeding and verifying the user table *)

Lemma scalar_one_or_none_some (rows : list Account) (row : Account) :
  scalar_one_or_none rows = inr (Some row) <-> rows = [row].
Proof.
  destruct rows as [|r [|r' rest]]; cbn; split; intros Heq;
    try discriminate; congruence.
Qed.

Lemma scalar_one_or_none_none (rows : list Account) :
  scalar_one_or_none rows = inr None <-> rows = [].
Proof. destruct rows as [|r [|r' rest]]; cbn; split; intros Heq; congruence. Qed.

(** X17.  [seed_test_user] is idempotent: when a run has returned a user, a
    second run, whatever identifier and hash it would draw, returns that
    same user and leaves the table as the first run left it; a first run
    that had to create the user has added exactly one row, at the end. *)
Theorem seed_test_user_idempotent (id id' : string) (hash hash' : string -> string)
    (db db1 : Database) (user : Account) :
  SeedDb.seed_test_user id hash db = (inr user, db1) ->
  SeedDb.seed_test_user id' hash' db1 = (inr user, db1)
  /\ (accounts db1 = accounts db
      \/ (accounts db1 = accounts db ++ [user]
          /\ user = SeedDb.new_test_user id (hash SeedDb.test_user_password))).
Proof.
  unfold SeedDb.seed_test_user, select_by_email, add_and_commit.
  destruct db as [[msg|] rows]; cbn [failure accounts]; [discriminate|].
  destruct (scalar_one_or_none (List.filter _ rows)) as [e|[existing|]] eqn:Hone;
    [discriminate| |].
  - intros [= <- <-]. cbn [failure accounts]. rewrite Hone. auto.
  - intros [= <- <-]. cbn [failure accounts].
    apply scalar_one_or_none_none in Hone.
    rewrite List.filter_app, Hone. cbn. auto.
Qed.

(** X18.  On a database that answers and has no row with the test address,
    [seed_test_user] adds one row: active, verified, not a superuser, with
    the drawn identifier and the hash of the test password, no cursor, no
    sync time and the onboarding flag [0], so that the worker takes it as
    pending; after it [verify_test_user] succeeds and reports the
    identifier.  A row that is already there is returned as it is, also when
    it is inactive or unverified, in which case the verification fails. *)
Theorem seed_then_verify (id : string) (hash : string -> string) (db : Database) :
  failure db = None ->
  (Forall (fun a => email (account a) <> SeedDb.test_user_email) (accounts db) ->
   let user := SeedDb.new_test_user id (hash SeedDb.test_user_password) in
   SeedDb.seed_test_user id hash db
   = (inr user, {| failure := None; accounts := accounts db ++ [user] |})
   /\ pending (account user) = true
   /\ last_pointer (account user) = None
   /\ VerifySetup.verify_test_user (snd (SeedDb.seed_test_user id hash db))
      = (true, "✓ Test user verified (ID: " +:+ id +:+ ")"))
  /\ (forall existing,
        List.filter (fun a => String.eqb (email (account a)) SeedDb.test_user_email)
                    (accounts db) = [existing] ->
        SeedDb.seed_test_user id hash db = (inr existing, db)
        /\ fst (VerifySetup.verify_test_user db)
           = is_active existing && is_verified existing).
Proof.
  intros Hup. destruct db as [f rows]. cbn in Hup. subst f. split.
  - intros Hnone user.
    assert (Hfilter : List.filter
              (fun a => String.eqb (email (account a)) SeedDb.test_user_email)
              rows = []).
    { cbn in Hnone. induction Hnone as [|a rows Ha _ IH]; [reflexivity|].
      cbn. apply String.eqb_neq in Ha. rewrite Ha. exact IH. }
    assert (Hseed : SeedDb.seed_test_user id hash {| failure := None; accounts := rows |}
                    = (inr user, {| failure := None; accounts := rows ++ [user] |})).
    { unfold SeedDb.seed_test_user, select_by_email, add_and_commit.
      cbn [failure accounts]. rewrite Hfilter. reflexivity. }
    split; [exact Hseed|]. split; [reflexivity|]. split; [reflexivity|].
    rewrite Hseed. unfold VerifySetup.verify_test_user, select_by_email.
    cbn [snd failure accounts].
    change "test@example.com" with SeedDb.test_user_email.
    rewrite List.filter_app, Hfilter. reflexivity.
  - intros existing Hone. cbn [accounts] in Hone.
    unfold SeedDb.seed_test_user, VerifySetup.verify_test_user, select_by_email.
    cbn [failure accounts].
    change "test@example.com" with SeedDb.test_user_email.
    rewrite Hone. cbn. split; [reflexivity|].
    destruct (is_active existing), (is_verified existing); reflexivity.
Qed.

(** X19.  The verification exits with status 0 exactly when the database
    answers and holds exactly one row with the test address, which is active
    and verified; in every other case (database down, no such row, several
    such rows, an inactive or unverified row) it exits with status 1.  When
    the database is down all three checks fail. *)
Theorem verify_main_status (db : Database) :
  (VerifySetup.main db = 0
   <-> failure db = None
       /\ exists user,
            List.filter (fun a => String.eqb (email (account a)) "test@example.com")
                        (accounts db) = [user]
            /\ is_active user = true /\ is_verified user = true)
  /\ (VerifySetup.main db = 0 \/ VerifySetup.main db = 1)
  /\ (failure db <> None ->
      fst (VerifySetup.verify_database_connection db) = false
      /\ fst (VerifySetup.verify_tables db) = false
      /\ fst (VerifySetup.verify_test_user db) = false).
Proof.
  unfold VerifySetup.main, VerifySetup.checks, VerifySetup.verify_database_connection,
    VerifySetup.verify_tables, VerifySetup.verify_test_user, select_limit_1,
    select_by_email.
  destruct db as [[msg|] rows]; cbn [failure accounts map fst snd forallb andb].
  { split; [|split; [by right|auto]].
    split; [discriminate|]. intros [Hf _]. discriminate. }
  split; [|split; [|congruence]].
  - destruct (List.filter _ rows) as [|user [|user' rest]] eqn:Hrows; cbn.
    + split; [discriminate|]. intros (_ & user & Heq & _). discriminate.
    + destruct (is_active user) eqn:Ha; cbn.
      2: { split; [discriminate|]. intros (_ & u & [= <-] & Hu & _). congruence. }
      destruct (is_verified user) eqn:Hv; cbn.
      2: { split; [discriminate|]. intros (_ & u & [= <-] & _ & Hu). congruence. }
      split; [|reflexivity]. intros _. split; [reflexivity|]. eauto.
    + split; [discriminate|]. intros (_ & u & Heq & _). discriminate.
  - match goal with
    | |- context [if ?b then 0 else 1] => destruct b
    end; auto.
Qed.

(** X17 on a database with one other user. *)
Lemma seed_test_user_idempotent_witness :
  let user := SeedDb.new_test_user "u9" ("$argon2$" +:+ SeedDb.test_user_password) in
  let db1 := {| failure := None; accounts := [dave; user] |} in
  SeedDb.seed_test_user "u9" (fun p => "$argon2$" +:+ p) fresh_database
  = (inr user, db1)
  /\ SeedDb.seed_test_user "u10" (fun p => "$bcrypt$" +:+ p) db1 = (inr user, db1).
Proof.
  cbv zeta.
  assert (Hfirst : SeedDb.seed_test_user "u9" (fun p => "$argon2$" +:+ p) fresh_database
                   = (inr (SeedDb.new_test_user "u9"
                             ("$argon2$" +:+ SeedDb.test_user_password)),
                      {| failure := None;
                         accounts := [dave; SeedDb.new_test_user "u9"
                                              ("$argon2$" +:+ SeedDb.test_user_password)] |}))
    by reflexivity.
  split; [exact Hfirst|].
  exact (proj1 (seed_test_user_idempotent "u9" "u10" _ (fun p => "$bcrypt$" +:+ p)
                  _ _ _ Hfirst)).
Defined.

(** X18 on a database with one other user. *)
Lemma seed_then_verify_witness :
  failure fresh_database = None
  /\ Forall (fun a => email (account a) <> SeedDb.test_user_email)
            (accounts fresh_database)
  /\ VerifySetup.verify_test_user
       (snd (SeedDb.seed_test_user "u9" (fun p => "$argon2$" +:+ p) fresh_database))
     = (true, "✓ Test user verified (ID: u9)").
Proof.
  assert (Hnone : Forall (fun a => email (account a) <> SeedDb.test_user_email)
                         (accounts fresh_database))
    by (constructor; [discriminate|constructor]).
  split; [reflexivity|]. split; [exact Hnone|].
  exact (proj2 (proj2 (proj2
           (proj1 (seed_then_verify "u9" (fun p => "$argon2$" +:+ p)
                     fresh_database eq_refl) Hnone)))).
Defined.

Example verify_before_and_after_seeding :
  VerifySetup.main fresh_database = 1
  /\ VerifySetup.main
       (snd (SeedDb.seed_test_user "u9" (fun p => "$argon2$" +:+ p) fresh_database))
     = 0
  /\ VerifySetup.main database_down = 1
  /\ VerifySetup.verify_database_connection database_down
     = (false, "✗ Database connection failed: connection refused").
Proof. repeat split; reflexivity. Qed.

(** ** The migration *)

Lemma upgrade_run (schema : gmap string (gmap string Migration.Column))
    (columns : gmap string Migration.Column) :
  schema !! "user" = Some columns ->
  Forall (fun name => columns !! name = None) Migration.mailbox_columns ->
  Migration.upgrade schema
  = inr (<["user" :=
            <["last_sync" := Migration.last_sync_column]>
              (<["onboarding_complete" := Migration.onboarding_complete_column]>
                 (<["last_pointer" := Migration.last_pointer_column]> columns))]>
           schema).
Proof.
  intros Huser Hnew. unfold Migration.mailbox_columns in Hnew.
  apply Forall_cons in Hnew as [Hp Hnew]. apply Forall_cons in Hnew as [Ho Hnew].
  apply Forall_cons in Hnew as [Hs _].
  unfold Migration.upgrade, Migration.add_column, Migration.then_.
  rewrite Huser, Hp. rewrite lookup_insert_eq.
  rewrite lookup_insert_ne by discriminate. rewrite Ho.
  rewrite lookup_insert_eq.
  rewrite !lookup_insert_ne by discriminate. rewrite Hs.
  by rewrite !insert_insert_eq.
Qed.

Lemma drop_column_run (schema : gmap string (gmap string Migration.Column))
    (columns : gmap string Migration.Column) (name : string)
    (column : Migration.Column) :
  schema !! "user" = Some columns ->
  columns !! name = Some column ->
  Migration.drop_column "user" name schema
  = inr (<["user" := delete name columns]> schema).
Proof. intros Huser Hname. unfold Migration.drop_column. by rewrite Huser, Hname. Qed.

(** X20.  On a schema whose [user] table has none of the three mailbox
    columns, [upgrade] succeeds and adds exactly these three: a nullable
    string [last_pointer], an integer [onboarding_complete] with server
    default 0, a nullable time stamp [last_sync]; the other columns and the
    other tables are as before, and [downgrade] after it gives back the schema
    [upgrade] was applied to. *)
Theorem migration_round_trip (schema : gmap string (gmap string Migration.Column))
    (columns : gmap string Migration.Column) :
  schema !! "user" = Some columns ->
  Forall (fun name => columns !! name = None) Migration.mailbox_columns ->
  exists upgraded columns',
    Migration.upgrade schema = inr upgraded
    /\ upgraded !! "user" = Some columns'
    /\ columns' !! "last_pointer" = Some Migration.last_pointer_column
    /\ columns' !! "onboarding_complete" = Some Migration.onboarding_complete_column
    /\ columns' !! "last_sync" = Some Migration.last_sync_column
    /\ (forall name, name ∉ Migration.mailbox_columns ->
                     columns' !! name = columns !! name)
    /\ (forall table, table <> "user" -> upgraded !! table = schema !! table)
    /\ Migration.downgrade upgraded = inr schema.
Proof.
  intros Huser Hnew. rewrite (upgrade_run schema columns Huser Hnew).
  eexists _, _. split; [reflexivity|]. split; [apply lookup_insert_eq|].
  unfold Migration.mailbox_columns in Hnew.
  apply Forall_cons in Hnew as [Hp Hnew]. apply Forall_cons in Hnew as [Ho Hnew].
  apply Forall_cons in Hnew as [Hs _].
  split; [by simplify_map_eq|]. split; [by simplify_map_eq|].
  split; [by simplify_map_eq|]. split.
  { intros name Hname. unfold Migration.mailbox_columns in Hname.
    rewrite !lookup_insert_ne; [reflexivity|..];
      intros <-; apply Hname; set_solver. }
  split; [intros table Ht; by rewrite lookup_insert_ne|].
  set (c3 := <["last_sync" := _]> _).
  assert (Hc3 : delete "last_pointer"
                  (delete "onboarding_complete" (delete "last_sync" c3)) = columns).
  { apply map_eq. intros name. subst c3.
    destruct (decide (name = "last_pointer")) as [->|?]; [by simplify_map_eq|].
    destruct (decide (name = "onboarding_complete")) as [->|?];
      [by simplify_map_eq|].
    destruct (decide (name = "last_sync")) as [->|?]; by simplify_map_eq. }
  unfold Migration.downgrade.
  rewrite (drop_column_run _ c3 "last_sync" Migration.last_sync_column);
    [|apply lookup_insert_eq|subst c3; by simplify_map_eq].
  cbn [Migration.then_].
  rewrite (drop_column_run _ (delete "last_sync" c3) "onboarding_complete"
             Migration.onboarding_complete_column);
    [|apply lookup_insert_eq|subst c3; by simplify_map_eq].
  cbn [Migration.then_].
  rewrite (drop_column_run _ (delete "onboarding_complete" (delete "last_sync" c3))
             "last_pointer" Migration.last_pointer_column);
    [|apply lookup_insert_eq|subst c3; by simplify_map_eq].
  rewrite Hc3, !insert_insert_eq. f_equal. by apply insert_id.
Qed.

(** X21.  The migration does not run twice: [upgrade] raises on the schema a
    successful [upgrade] has left, and [downgrade] raises on a schema whose
    [user] table lacks the column it drops first; both raise when there is
    no [user] table. *)
Theorem migration_not_repeatable
    (schema upgraded : gmap string (gmap string Migration.Column)) :
  (Migration.upgrade schema = inr upgraded ->
   exists e, Migration.upgrade upgraded = inl e)
  /\ (forall columns, schema !! "user" = Some columns ->
        columns !! "last_sync" = None ->
        exists e, Migration.downgrade schema = inl e)
  /\ (schema !! "user" = None ->
      (exists e, Migration.upgrade schema = inl e)
      /\ exists e, Migration.downgrade schema = inl e).
Proof.
  split; [|split].
  - unfold Migration.upgrade, Migration.then_ at 1 2.
    unfold Migration.add_column at 1.
    destruct (schema !! "user") as [columns|] eqn:Huser; [|discriminate].
    destruct (columns !! "last_pointer") eqn:Hp; [discriminate|].
    unfold Migration.add_column at 1. rewrite lookup_insert_eq.
    rewrite lookup_insert_ne by discriminate.
    destruct (columns !! "onboarding_complete") eqn:Ho; [discriminate|].
    unfold Migration.then_ at 1. unfold Migration.add_column at 1.
    rewrite lookup_insert_eq. rewrite !lookup_insert_ne by discriminate.
    destruct (columns !! "last_sync") eqn:Hs; [discriminate|].
    intros [= <-].
    unfold Migration.then_, Migration.add_column.
    rewrite lookup_insert_eq. rewrite !lookup_insert_ne by discriminate.
    rewrite lookup_insert_eq. eauto.
  - intros columns Huser Hs.
    unfold Migration.downgrade, Migration.then_, Migration.drop_column.
    rewrite Huser, Hs. eauto.
  - intros Huser.
    unfold Migration.upgrade, Migration.downgrade, Migration.then_,
      Migration.add_column, Migration.drop_column.
    rewrite Huser. eauto.
Qed.

(** X20 on a schema with a [user] table that has an address column. *)
Lemma migration_round_trip_witness :
  base_schema !! "user"
  = Some {[ "email" := {| Migration.sa_type := Migration.SaString;
                          Migration.nullable := false;
                          Migration.server_default := None |} ]}
  /\ exists upgraded,
       Migration.upgrade base_schema = inr upgraded
       /\ Migration.downgrade upgraded = inr base_schema.
Proof.
  assert (Huser : base_schema !! "user"
            = Some {[ "email" := {| Migration.sa_type := Migration.SaString;
                                    Migration.nullable := false;
                                    Migration.server_default := None |} ]})
    by reflexivity.
  split; [exact Huser|].
  destruct (migration_round_trip base_schema _ Huser)
    as (upgraded & columns' & Hup & _ & _ & _ & _ & _ & _ & Hdown).
  { repeat constructor. }
  exists upgraded. split; [exact Hup|exact Hdown].
Defined.

(** ** The classifier input *)

Lemma append_assoc (s1 s2 s3 : string) :
  (s1 +:+ s2) +:+ s3 = s1 +:+ (s2 +:+ s3).
Proof.
  induction s1 as [|c s1 IH]; [reflexivity|].
  change (String c ((s1 +:+ s2) +:+ s3) = String c (s1 +:+ (s2 +:+ s3))).
  by f_equal.
Qed.

Lemma append_empty_r (s : string) : s +:+ "" = s.
Proof.
  induction s as [|c s IH]; [reflexivity|].
  change (String c (s +:+ "") = String c s). by f_equal.
Qed.

Lemma combined_text_fold (msgs : list Email.t) (acc : string) :
  foldl (fun combined_text msg =>
           let body := Email.body msg in
           if truthy body then combined_text +:+ LF +:+ body else combined_text)
        acc msgs
  = acc +:+ replies_text msgs.
Proof.
  revert acc. induction msgs as [|msg msgs IH]; intros acc;
    cbn [foldl replies_text foldr]; [by rewrite append_empty_r|].
  rewrite IH. cbv zeta. fold (replies_text msgs).
  destruct (truthy (Email.body msg)); [|reflexivity].
  by rewrite !append_assoc.
Qed.

(** X22.  The text [label_email] gives the classifier is the body of the main
    message followed, for every entry of [thread_messages] in order whose
    body is not empty, by a line feed and that body.  An entry with an empty
    body adds nothing, not even the line feed, and the text of a thread read
    in two parts is the text of the first part followed by what the second
    adds. *)
Theorem combined_text_closed_form (main_email : Email.t)
    (thread_messages more : list Email.t) :
  combined_text_of main_email thread_messages
  = Email.body main_email +:+ replies_text thread_messages
  /\ combined_text_of main_email (thread_messages ++ more)
     = combined_text_of main_email thread_messages +:+ replies_text more
  /\ (forall msg, Email.body msg = "" ->
        combined_text_of main_email (thread_messages ++ msg :: more)
        = combined_text_of main_email (thread_messages ++ more)).
Proof.
  assert (Happ : forall l1 l2,
            replies_text (l1 ++ l2) = replies_text l1 +:+ replies_text l2).
  { induction l1 as [|m l1 IH]; intros l2; cbn; [reflexivity|].
    fold (replies_text (l1 ++ l2)) (replies_text l1). rewrite IH.
    destruct (truthy (Email.body m)); [|reflexivity].
    cbn. by rewrite !append_assoc. }
  unfold combined_text_of. rewrite !combined_text_fold.
  split; [reflexivity|]. split.
  - by rewrite Happ, append_assoc.
  - intros msg Hmsg. rewrite !combined_text_fold, !Happ. cbn [replies_text foldr].
    by rewrite Hmsg.
Qed.

(** ** The cursor from one cycle to the next *)

Section CursorFacts.
Context `{PyRuntime} {W : Type} `{Services W}.

(** X23.  The cursor is handed on: when a step fetches a batch with at least
    one thread whose next pointer is a non-empty token and the commit
    succeeds, the user stays pending with that token as cursor, and the next
    step for that user, in whatever state it runs, begins with the list
    request for exactly that page. *)
Theorem cursor_handoff (user : User) (out : ReaderOutput) (token : string)
    (s s1 : St W) :
  pending user = true ->
  email_reader (last_pointer user) s = (inr out, s1) ->
  emails out <> [] ->
  nextPointer out = Some token ->
  truthy token = true ->
  commit_attempt out s1 = inr tt ->
  exists user' s',
    process_user_emails user s = (inr user', s')
    /\ pending user' = true
    /\ last_pointer user' = Some token
    /\ forall s2, exists evs,
         trace (snd (process_user_emails user' s2))
         = trace s2 ++ MessagesList {| userId := "me"; maxResults := 5;
                                       pageToken := Some token |} :: evs.
Proof.
  intros Hp Hread Hne Hnext Htoken Hcommit.
  rewrite process_user_emails_run, Hread.
  destruct (emails out) as [|entry rest]; [congruence|]. cbn [truthy_list].
  cbv zeta. unfold commit_attempt in Hcommit. cbn in Hcommit |- *.
  rewrite Hcommit. eexists _, _. split; [reflexivity|].
  unfold pending, advance in *. cbn [onboarding_complete last_pointer].
  rewrite Hnext. cbn [truthy_opt]. rewrite Htoken.
  split; [exact Hp|]. split; [reflexivity|].
  intros s2.
  destruct (process_user_emails_trace
              {| user_id := user_id user; email := email user;
                 last_pointer := Some token;
                 onboarding_complete := onboarding_complete user;
                 last_sync := Some (datetime_utcnow (world (label_email out s1).2)).1 |}
              s2)
    as (threads & labeling & tail & Htr & _).
  eexists. rewrite Htr. unfold list_params_of. cbn [last_pointer truthy_opt].
  rewrite Htoken. reflexivity.
Qed.

End CursorFacts.

(** X23 in the mailbox of two pages. *)
Lemma cursor_handoff_witness :
  let s := start_state two_page_world in
  exists out s1 user' s',
    pending alice = true
    /\ email_reader (last_pointer alice) s = (inr out, s1)
    /\ emails out <> []
    /\ nextPointer out = Some "p2"
    /\ truthy "p2" = true
    /\ commit_attempt out s1 = inr tt
    /\ process_user_emails alice s = (inr user', s')
    /\ pending user' = true
    /\ last_pointer user' = Some "p2".
Proof.
  cbv zeta.
  destruct (email_reader (last_pointer alice) (start_state two_page_world))
    as [[err|out] s1] eqn:Hread; [vm_compute in Hread; discriminate|].
  assert (Hne : emails out <> []).
  { vm_compute in Hread. injection Hread as <- _. discriminate. }
  assert (Hnext : nextPointer out = Some "p2").
  { vm_compute in Hread. injection Hread as <- _. reflexivity. }
  assert (Hcommit : commit_attempt out s1 = inr tt).
  { vm_compute in Hread. injection Hread as <- <-. vm_compute. reflexivity. }
  destruct (cursor_handoff alice out "p2" _ s1 eq_refl Hread Hne Hnext eq_refl Hcommit)
    as (user' & s' & Hrun & Hp & Hcursor & _).
  exists out, s1, user', s'. repeat split; auto.
Defined.

Example two_pages_two_cycles :
  fst (run_cycles 1 [alice] (start_state two_page_world))
  = inr [ {| user_id := "u1"; email := "alice@example.com";
             last_pointer := Some "p2"; onboarding_complete := 0;
             last_sync := Some 100 |} ]
  /\ fst (run_cycles 2 [alice] (start_state two_page_world))
     = inr [ {| user_id := "u1"; email := "alice@example.com";
                last_pointer := None; onboarding_complete := 1;
                last_sync := Some 101 |} ].
Proof. split; vm_compute; reflexivity. Qed.
